(** * dcm2bids_prep.py : the two-pass DICOM preparation script

    A shallow embedding of [dcm2bids_prep.py] (bidskit): the file tree the
    script walks, the protocol dictionary it loads and writes as JSON, the
    header reader, and [main] with its pass selection.

    Python values are modelled as data, effects (the file tree, standard
    output, exceptions and [sys.exit]) by a state-and-exception monad. *)

From Stdlib Require Import String Ascii DecimalString.
From Stdlib Require Import List ZArith NArith Lia Bool Arith.
Import ListNotations.

Set Implicit Arguments.
Set Warnings "-register-all".

(* ================================================================== *)
(** * Python strings *)

(** A Python [str] is a sequence of code points. *)
Definition pystr := list N.

Definition ord (a : ascii) : N := N_of_ascii a.

(** [u "text"] is the [str] spelled by an ASCII literal. *)
Definition u (s : string) : pystr := map ord (list_ascii_of_string s).

Fixpoint str_eqb (a b : pystr) : bool :=
  match a, b with
  | [], [] => true
  | x :: a', y :: b' => N.eqb x y && str_eqb a' b'
  | _, _ => false
  end.

(** [s] between double quotes. *)
Definition dq (s : pystr) : pystr := 34%N :: s ++ [34%N].

(** [n * s] for a string [s] and a count [n]. *)
Fixpoint str_mul (n : nat) (s : pystr) : pystr :=
  match n with
  | O => []
  | S n' => s ++ str_mul n' s
  end.

Definition startswith (p s : pystr) : bool := str_eqb p (firstn (length p) s).

Definition endswith (p s : pystr) : bool :=
  str_eqb p (skipn (length s - length p) s) && (length p <=? length s)%nat.

(* ================================================================== *)
(** * os.path (POSIX) *)

Module path.

Definition sep : N := 47.

(** [s.split(os.sep)] *)
Fixpoint split (s : pystr) : list pystr :=
  match s with
  | [] => [[]]
  | c :: s' =>
      if N.eqb c sep then [] :: split s'
      else match split s' with
           | [] => [[c]]
           | w :: ws => (c :: w) :: ws
           end
  end.

(** [os.path.basename(p)]: what follows the last separator. *)
Definition basename (p : pystr) : pystr := last (split p) [].

(** [os.path.join(a, b)] *)
Definition join (a b : pystr) : pystr :=
  if startswith [sep] b then b
  else if str_eqb a [] || endswith [sep] a then a ++ b
  else a ++ sep :: b.

End path.

(* ================================================================== *)
(** * Python values *)

(** A float is kept as the numeral that names it (sign, decimal mantissa,
    power of ten); the binary64 value is that number rounded to nearest. *)
Inductive pyfloat :=
| FNum (neg : bool) (m : N) (e : Z)
| FInf (neg : bool)
| FNaN.

(** The values [json.load] can return, which are also the values the
    script stores in its dictionaries. A [dict] keeps insertion order. *)
Inductive value :=
| PNone
| PBool (b : bool)
| PInt (z : Z)
| PFloat (f : pyfloat)
| PStr (s : pystr)
| PList (l : list value)
| PDict (d : list (pystr * value)).

(** [m * 10^e] rounds to zero exactly when it is at most [2^-1075], half
    of the least positive binary64 number (ties go to the even mantissa). *)
Definition float_is_zero (f : pyfloat) : bool :=
  match f with
  | FNum _ m e =>
      if (0 <=? e)%Z then N.eqb m 0
      else (Z.of_N m * 2 ^ 1075 <=? 10 ^ (- e))%Z
  | FInf _ | FNaN => false
  end.

(** Truth value of an object, as tested by [if x] and by [x and y]. *)
Definition truthy (v : value) : bool :=
  match v with
  | PNone => false
  | PBool b => b
  | PInt z => negb (Z.eqb z 0)
  | PFloat f => negb (float_is_zero f)
  | PStr s => negb (str_eqb s [])
  | PList l => match l with [] => false | _ => true end
  | PDict d => match d with [] => false | _ => true end
  end.

Module dict.

Fixpoint get {A} (d : list (pystr * A)) (k : pystr) : option A :=
  match d with
  | [] => None
  | (k', v) :: d' => if str_eqb k k' then Some v else get d' k
  end.

(** [d[k] = v]: a key already present keeps its place. *)
Fixpoint set {A} (d : list (pystr * A)) (k : pystr) (v : A) : list (pystr * A) :=
  match d with
  | [] => [(k, v)]
  | (k', v') :: d' =>
      if str_eqb k k' then (k', v) :: d' else (k', v') :: set d' k v
  end.

Definition keys {A} (d : list (pystr * A)) : list pystr := map fst d.
Definition values {A} (d : list (pystr * A)) : list A := map snd d.

End dict.

(* ================================================================== *)
(** * json: the decoder ([json.load]) *)

Module json.

(** Result of scanning a prefix of the text. [Starved] is the model
    running out of fuel; [loads_never_starved] shows it does not happen. *)
Inductive scan (A : Type) :=
| Parsed (a : A) (rest : pystr)
| Malformed
| Starved.
Arguments Malformed {A}.
Arguments Starved {A}.

Definition is_ws (c : N) : bool :=
  N.eqb c 32 || N.eqb c 9 || N.eqb c 10 || N.eqb c 13.

Fixpoint skip_ws (s : pystr) : pystr :=
  match s with
  | c :: s' => if is_ws c then skip_ws s' else s
  | [] => []
  end.

Definition is_digit (c : N) : bool := (48 <=? c)%N && (c <=? 57)%N.

Definition hexval (c : N) : option N :=
  if (48 <=? c)%N && (c <=? 57)%N then Some (c - 48)%N
  else if (97 <=? c)%N && (c <=? 102)%N then Some (c - 87)%N
  else if (65 <=? c)%N && (c <=? 70)%N then Some (c - 55)%N
  else None.

(** [_decode_uXXXX]: four hexadecimal digits. *)
Definition hex4 (a b c d : N) : option N :=
  match hexval a, hexval b, hexval c, hexval d with
  | Some x, Some y, Some z, Some w => Some (4096 * x + 256 * y + 16 * z + w)%N
  | _, _, _, _ => None
  end.

Definition is_high_surrogate (n : N) : bool := (55296 <=? n)%N && (n <=? 56319)%N.
Definition is_low_surrogate (n : N) : bool := (56320 <=? n)%N && (n <=? 57343)%N.

(** The [BACKSLASH] table. *)
Definition unescape (e : N) : option N :=
  if N.eqb e 34 then Some 34%N        (* quote *)
  else if N.eqb e 92 then Some 92%N   (* backslash *)
  else if N.eqb e 47 then Some 47%N   (* slash *)
  else if N.eqb e 98 then Some 8%N    (* b: backspace *)
  else if N.eqb e 102 then Some 12%N  (* f: form feed *)
  else if N.eqb e 110 then Some 10%N  (* n: line feed *)
  else if N.eqb e 114 then Some 13%N  (* r: carriage return *)
  else if N.eqb e 116 then Some 9%N   (* t: tab *)
  else None.

Definition cons_char (c : N) (r : scan pystr) : scan pystr :=
  match r with
  | Parsed s rest => Parsed (c :: s) rest
  | Malformed => Malformed
  | Starved => Starved
  end.

(** [scanstring] in strict mode, from just after the opening quote: the
    decoded string and the text after the closing quote. A high surrogate
    escape directly followed by a low surrogate escape is one code point. *)
Fixpoint scanstring (s : pystr) : scan pystr :=
  match s with
  | [] => Malformed
  | c :: s1 =>
      if N.eqb c 34 then Parsed [] s1
      else if N.eqb c 92 then
        match s1 with
        | [] => Malformed
        | e :: s2 =>
            if N.eqb e 117 then
              match s2 with
              | h1 :: h2 :: h3 :: h4 :: s3 =>
                  match hex4 h1 h2 h3 h4 with
                  | None => Malformed
                  | Some uni =>
                      match s3 with
                      | b :: v :: l1 :: l2 :: l3 :: l4 :: s4 =>
                          match hex4 l1 l2 l3 l4 with
                          | Some uni2 =>
                              if is_high_surrogate uni && N.eqb b 92 && N.eqb v 117
                                 && is_low_surrogate uni2
                              then cons_char
                                     (65536 + N.lor (N.shiftl (uni - 55296) 10) (uni2 - 56320))
                                     (scanstring s4)
                              else cons_char uni (scanstring s3)
                          | None => cons_char uni (scanstring s3)
                          end
                      | _ => cons_char uni (scanstring s3)
                      end
                  end
              | _ => Malformed
              end
            else
              match unescape e with
              | Some ch => cons_char ch (scanstring s2)
              | None => Malformed
              end
        end
      else if (c <? 32)%N then Malformed
      else cons_char c (scanstring s1)
  end.

(** ** Numbers: [NUMBER_RE], then [int] or [float] *)

Fixpoint span_digits (s : pystr) : list N * pystr :=
  match s with
  | c :: s' =>
      if is_digit c then let (ds, r) := span_digits s' in ((c - 48)%N :: ds, r)
      else ([], s)
  | [] => ([], [])
  end.

Definition of_digits (ds : list N) : N :=
  fold_left (fun acc d => (10 * acc + d)%N) ds 0%N.

(** The integer part: [0], or a nonzero digit and more digits. *)
Definition scan_int_part (s : pystr) : option (list N * pystr) :=
  match s with
  | c :: s' =>
      if N.eqb c 48 then Some ([0%N], s')
      else if is_digit c then
        let (ds, r) := span_digits s' in Some ((c - 48)%N :: ds, r)
      else None
  | [] => None
  end.

(** The optional fraction: a dot and at least one digit. *)
Definition scan_frac (s : pystr) : option (list N * pystr) :=
  match s with
  | c :: s' =>
      if N.eqb c 46 then
        match span_digits s' with
        | ([], _) => None
        | (ds, r) => Some (ds, r)
        end
      else None
  | [] => None
  end.

(** The optional exponent: [e] or [E], a sign if any, at least one digit. *)
Definition scan_exp (s : pystr) : option (Z * pystr) :=
  match s with
  | c :: s' =>
      if N.eqb c 101 || N.eqb c 69 then
        let '(neg, s2) :=
          match s' with
          | g :: s'' =>
              if N.eqb g 45 then (true, s'')
              else if N.eqb g 43 then (false, s'')
              else (false, s')
          | [] => (false, s')
          end in
        match span_digits s2 with
        | ([], _) => None
        | (ds, r) =>
            Some (if neg then (- Z.of_N (of_digits ds))%Z else Z.of_N (of_digits ds), r)
        end
      else None
  | [] => None
  end.

Definition scan_number (s : pystr) : option (value * pystr) :=
  let '(neg, s1) :=
    match s with
    | c :: s' => if N.eqb c 45 then (true, s') else (false, s)
    | [] => (false, s)
    end in
  match scan_int_part s1 with
  | None => None
  | Some (ip, r1) =>
      let '(fp, r2) :=
        match scan_frac r1 with
        | Some (ds, r) => (Some ds, r)
        | None => (None, r1)
        end in
      let '(ep, r3) :=
        match scan_exp r2 with
        | Some (e, r) => (Some e, r)
        | None => (None, r2)
        end in
      match fp, ep with
      | None, None =>
          Some (PInt (if neg then - Z.of_N (of_digits ip) else Z.of_N (of_digits ip)), r3)
      | _, _ =>
          let fd := match fp with Some ds => ds | None => [] end in
          let e := match ep with Some e => e | None => 0%Z end in
          Some (PFloat (FNum neg (of_digits (ip ++ fd)) (e - Z.of_nat (length fd))), r3)
      end
  end.

(** [s[idx:idx+len(w)] == w], giving what follows. *)
Fixpoint strip_prefix (w s : pystr) : option pystr :=
  match w, s with
  | [], _ => Some s
  | a :: w', b :: s' => if N.eqb a b then strip_prefix w' s' else None
  | _ :: _, [] => None
  end.

(** [null], [true], [false]; a number; [NaN], [Infinity], [-Infinity]. *)
Definition scan_atom (s : pystr) : scan value :=
  match strip_prefix (u "null") s with
  | Some r => Parsed PNone r
  | None =>
  match strip_prefix (u "true") s with
  | Some r => Parsed (PBool true) r
  | None =>
  match strip_prefix (u "false") s with
  | Some r => Parsed (PBool false) r
  | None =>
  match scan_number s with
  | Some (v, r) => Parsed v r
  | None =>
  match strip_prefix (u "NaN") s with
  | Some r => Parsed (PFloat FNaN) r
  | None =>
  match strip_prefix (u "Infinity") s with
  | Some r => Parsed (PFloat (FInf false)) r
  | None =>
  match strip_prefix (u "-Infinity") s with
  | Some r => Parsed (PFloat (FInf true)) r
  | None => Malformed
  end end end end end end end.

(** ** Values, arrays and objects

    [scan_once] with [JSONArray] and [JSONObject]. [scan_once] does not
    skip white space before the value, its callers do. [elements] and
    [members] are the two [while True] loops, entered where a value
    (a key) is due; [members] adds to the dictionary as [dict(pairs)]
    does, so the last of two equal keys gives the value. *)
Fixpoint scan_once (fuel : nat) (s : pystr) {struct fuel} : scan value :=
  match fuel with
  | O => Starved
  | S fuel' =>
      match s with
      | [] => Malformed
      | c :: s' =>
          if N.eqb c 34 then
            match scanstring s' with
            | Parsed str r => Parsed (PStr str) r
            | Malformed => Malformed
            | Starved => Starved
            end
          else if N.eqb c 123 then
            match skip_ws s' with
            | c1 :: r1 =>
                if N.eqb c1 125 then Parsed (PDict []) r1
                else match members fuel' (c1 :: r1) [] with
                     | Parsed d r => Parsed (PDict d) r
                     | Malformed => Malformed
                     | Starved => Starved
                     end
            | [] => Malformed
            end
          else if N.eqb c 91 then
            match skip_ws s' with
            | c1 :: r1 =>
                if N.eqb c1 93 then Parsed (PList []) r1
                else match elements fuel' (c1 :: r1) [] with
                     | Parsed l r => Parsed (PList l) r
                     | Malformed => Malformed
                     | Starved => Starved
                     end
            | [] => Malformed
            end
          else scan_atom s
      end
  end

with elements (fuel : nat) (s : pystr) (acc : list value) {struct fuel}
  : scan (list value) :=
  match fuel with
  | O => Starved
  | S fuel' =>
      match scan_once fuel' s with
      | Parsed v r =>
          match skip_ws r with
          | c :: r' =>
              if N.eqb c 93 then Parsed (acc ++ [v]) r'
              else if N.eqb c 44 then elements fuel' (skip_ws r') (acc ++ [v])
              else Malformed
          | [] => Malformed
          end
      | Malformed => Malformed
      | Starved => Starved
      end
  end

with members (fuel : nat) (s : pystr) (acc : list (pystr * value)) {struct fuel}
  : scan (list (pystr * value)) :=
  match fuel with
  | O => Starved
  | S fuel' =>
      match s with
      | q :: s0 =>
          if N.eqb q 34 then
            match scanstring s0 with
            | Parsed key r0 =>
                match skip_ws r0 with
                | c0 :: r1 =>
                    if N.eqb c0 58 then
                      match scan_once fuel' (skip_ws r1) with
                      | Parsed v r =>
                          match skip_ws r with
                          | c :: r' =>
                              if N.eqb c 125 then Parsed (dict.set acc key v) r'
                              else if N.eqb c 44 then
                                members fuel' (skip_ws r') (dict.set acc key v)
                              else Malformed
                          | [] => Malformed
                          end
                      | Malformed => Malformed
                      | Starved => Starved
                      end
                    else Malformed
                | [] => Malformed
                end
            | Malformed => Malformed
            | Starved => Starved
            end
          else Malformed
      | [] => Malformed
      end
  end.

(** [json.loads(s)]: no byte order mark, white space, one value, white
    space, end of text. [None] is [JSONDecodeError]. *)
Definition loads (s : pystr) : option value :=
  if startswith [65279%N] s then None
  else
    match scan_once (2 * length s + 1) (skip_ws s) with
    | Parsed v r => match skip_ws r with [] => Some v | _ => None end
    | _ => None
    end.

(* ------------------------------------------------------------------ *)
(** * json: the encoder ([json.dump]) *)

Definition hexchar (d : N) : N := if (d <? 10)%N then (48 + d)%N else (87 + d)%N.

(** A backslash, [u] and four lower-case hexadecimal digits. *)
Definition uXXXX (n : N) : pystr :=
  [92; 117; hexchar (n / 4096); hexchar ((n / 256) mod 16);
   hexchar ((n / 16) mod 16); hexchar (n mod 16)]%N.

(** [ESCAPE_ASCII] with [ESCAPE_DCT]: the backslash, the quote and all
    that is not between space and tilde are escaped; a code point above
    the basic plane becomes a surrogate pair. *)
Definition escape_char (c : N) : pystr :=
  if N.eqb c 92 then [92; 92]%N
  else if N.eqb c 34 then [92; 34]%N
  else if N.eqb c 8 then [92; 98]%N
  else if N.eqb c 12 then [92; 102]%N
  else if N.eqb c 10 then [92; 110]%N
  else if N.eqb c 13 then [92; 114]%N
  else if N.eqb c 9 then [92; 116]%N
  else if (32 <=? c)%N && (c <=? 126)%N then [c]
  else if (c <? 65536)%N then uXXXX c
  else
    let n := (c - 65536)%N in
    uXXXX (N.lor 55296 (N.land (N.shiftr n 10) 1023))
    ++ uXXXX (N.lor 56320 (N.land n 1023)).

(** [encode_basestring_ascii] ([ensure_ascii] is on by default). *)
Definition encode_basestring_ascii (s : pystr) : pystr :=
  34%N :: flat_map escape_char s ++ [34%N].

(** [str(z)] for an [int]. *)
Definition int_repr (z : Z) : pystr := u (NilZero.string_of_int (Z.to_int z)).

(** [floatstr]: the three constants, or a numeral of the same number
    (Python picks the shortest numeral of the binary64 value). *)
Definition float_repr (f : pyfloat) : pystr :=
  match f with
  | FNaN => u "NaN"
  | FInf false => u "Infinity"
  | FInf true => u "-Infinity"
  | FNum neg m e =>
      (if neg then u "-" else []) ++ int_repr (Z.of_N m) ++ u "e" ++ int_repr e
  end.

(** [sep.join(items)] *)
Fixpoint str_join (sp : pystr) (items : list pystr) : pystr :=
  match items with
  | [] => []
  | [x] => x
  | x :: rest => x ++ sp ++ str_join sp rest
  end.

(** A new line and [indent] spaces for each level. *)
Definition newline_indent (indent level : nat) : pystr :=
  10%N :: str_mul level (str_mul indent [32%N]).

(** [_iterencode] with its [_iterencode_list] and [_iterencode_dict], for
    an [indent] and the separators [(item_sep, key_sep)]: an empty list
    or dictionary has no line break; otherwise every item is on a line of
    its own, one level deeper. Keys are written in insertion order. *)
Fixpoint iterencode (indent : nat) (item_sep key_sep : pystr)
    (level : nat) (v : value) : pystr :=
  match v with
  | PNone => u "null"
  | PBool true => u "true"
  | PBool false => u "false"
  | PInt z => int_repr z
  | PFloat f => float_repr f
  | PStr s => encode_basestring_ascii s
  | PList [] => u "[]"
  | PList l =>
      91%N :: newline_indent indent (S level)
      ++ str_join (item_sep ++ newline_indent indent (S level))
           (map (iterencode indent item_sep key_sep (S level)) l)
      ++ newline_indent indent level ++ [93%N]
  | PDict [] => u "{}"
  | PDict d =>
      123%N :: newline_indent indent (S level)
      ++ str_join (item_sep ++ newline_indent indent (S level))
           (map (fun kv : pystr * value =>
                   let (k, x) := kv in
                   encode_basestring_ascii k ++ key_sep
                   ++ iterencode indent item_sep key_sep (S level) x) d)
      ++ newline_indent indent level ++ [125%N]
  end.

(** [json.dumps(obj, indent=indent, separators=(item_sep, key_sep))] *)
Definition dumps (indent : nat) (item_sep key_sep : pystr) (v : value) : pystr :=
  iterencode indent item_sep key_sep 0 v.

End json.

(* ================================================================== *)
(** * The file tree *)

(** A DICOM data set as the [dicom] package gives it: the data elements
    by keyword. [Dataset] derives from [dict], so a data set without
    elements is false in a condition. *)
Definition Dataset := list (pystr * value).

(** A regular file is seen in two ways: as text ([None] when its bytes do
    not decode) and through [dicom.read_file] ([None] when that raises).
    A directory lists its entries in the order the system returns them. *)
Inductive node :=
| File (text : option pystr) (dcm : option Dataset)
| Dir (entries : list (pystr * node)).

Module os.

Inductive errno := ENOENT | ENOTDIR | EISDIR.

(** The node at a path given by its components from the root. *)
Fixpoint get (n : node) (p : list pystr) {struct p} : option node :=
  match p with
  | [] => Some n
  | c :: p' =>
      match n with
      | Dir es =>
          match dict.get es c with
          | Some ch => get ch p'
          | None => None
          end
      | File _ _ => None
      end
  end.

(** In a list of entries, the entry named [c] becomes [f] of itself; a
    list without that name gets the entries [absent] at its end. *)
Fixpoint update_entry (c : pystr) (f : node -> node)
    (absent : list (pystr * node)) (es : list (pystr * node))
  : list (pystr * node) :=
  match es with
  | [] => absent
  | (k, ch) :: es' =>
      if str_eqb c k then (k, f ch) :: es'
      else (k, ch) :: update_entry c f absent es'
  end.

(** Replace the node at a path, or add it to its parent directory. *)
Fixpoint put (n : node) (p : list pystr) (new : node) {struct p} : node :=
  match p with
  | [] => new
  | c :: p' =>
      match n with
      | Dir es =>
          Dir (update_entry c (fun ch => put ch p' new)
                 (match p' with [] => [(c, new)] | _ :: _ => [] end) es)
      | File _ _ => n
      end
  end.

Definition is_dot (c : pystr) : bool := str_eqb c [] || str_eqb c (u ".").
Definition is_dotdot (c : pystr) : bool := str_eqb c (u "..").

(** Path resolution, component by component, from the directory [cur]
    (its components from the root). The working directory of the process
    is the root of the tree, which is also its own parent. *)
Fixpoint resolve (root : node) (cur : list pystr) (cs : list pystr)
  : errno + list pystr :=
  match cs with
  | [] => inr cur
  | c :: cs' =>
      match get root cur with
      | Some (Dir es) =>
          if is_dot c then resolve root cur cs'
          else if is_dotdot c then resolve root (removelast cur) cs'
          else match dict.get es c with
               | Some _ => resolve root (cur ++ [c]) cs'
               | None => inl ENOENT
               end
      | Some (File _ _) => inl ENOTDIR
      | None => inl ENOENT
      end
  end.

(** [os.stat(p)] *)
Definition stat (root : node) (p : pystr) : errno + node :=
  if str_eqb p [] then inl ENOENT
  else
    match resolve root [] (path.split p) with
    | inr r => match get root r with Some n => inr n | None => inl ENOENT end
    | inl e => inl e
    end.

(** [os.path.isfile(p)] and [os.path.isdir(p)] *)
Definition isfile (root : node) (p : pystr) : bool :=
  match stat root p with inr (File _ _) => true | _ => false end.

Definition isdir (root : node) (p : pystr) : bool :=
  match stat root p with inr (Dir _) => true | _ => false end.

Definition subdirs (es : list (pystr * node)) : list pystr :=
  flat_map (fun e : pystr * node =>
              match snd e with Dir _ => [fst e] | File _ _ => [] end) es.

Definition nondirs (es : list (pystr * node)) : list pystr :=
  flat_map (fun e : pystr * node =>
              match snd e with Dir _ => [] | File _ _ => [fst e] end) es.

(** [os.walk(top)], top down: a directory, then its subdirectories in
    turn, each named by joining its name to the path of its parent. *)
Fixpoint walk_node (top : pystr) (n : node) : list (pystr * list pystr * list pystr) :=
  match n with
  | File _ _ => []
  | Dir es =>
      (top, subdirs es, nondirs es)
      :: flat_map (fun e : pystr * node =>
                     let (name, ch) := e in walk_node (path.join top name) ch) es
  end.

(** A [top] that is not a directory gives no item ([onerror] is unset). *)
Definition walk (root : node) (top : pystr) : list (pystr * list pystr * list pystr) :=
  match stat root top with
  | inr n => walk_node top n
  | inl _ => []
  end.

(** [open(p, 'w')]: the components of the file, created or emptied. *)
Definition create (root : node) (p : pystr) : errno + (list pystr * node) :=
  if str_eqb p [] then inl ENOENT
  else
    let cs := path.split p in
    let c := last cs [] in
    match resolve root [] (removelast cs) with
    | inl e => inl e
    | inr r =>
        match get root r with
        | Some (Dir es) =>
            if is_dot c || is_dotdot c then inl EISDIR
            else match dict.get es c with
                 | Some (Dir _) => inl EISDIR
                 | _ => inr (r ++ [c], put root (r ++ [c]) (File (Some []) None))
                 end
        | Some (File _ _) => inl ENOTDIR
        | None => inl ENOENT
        end
    end.

End os.

(* ================================================================== *)
(** * Effects: the world, exceptions, output *)

Record world := World {
  tree : node;               (* the file tree under the working directory *)
  stdout : list pystr        (* the lines printed so far *)
}.

Inductive exn :=
| NameError (name : pystr)
| TypeError
| JSONDecodeError
| UnicodeDecodeError
| OSError (e : os.errno)
| InvalidDicomError
| SystemExit (code : Z).

Inductive outcome (A : Type) :=
| Return (a : A)
| Raise (e : exn).
Arguments Raise {A}.

(** A computation runs in a world and ends by returning or raising. *)
Definition M (A : Type) := world -> outcome A * world.

Definition ret {A} (a : A) : M A := fun w => (Return a, w).

Definition bind {A B} (m : M A) (k : A -> M B) : M B :=
  fun w =>
    match m w with
    | (Return a, w') => k a w'
    | (Raise e, w') => (Raise e, w')
    end.

Definition raise {A} (e : exn) : M A := fun w => (Raise e, w).

(** [try: m  except: h] with a bare [except], which catches everything. *)
Definition try_except {A} (m : M A) (h : M A) : M A :=
  fun w =>
    match m w with
    | (Return a, w') => (Return a, w')
    | (Raise _, w') => h w'
    end.

Declare Scope py_scope.
Delimit Scope py_scope with py.
Notation "x <- m ;; k" := (bind m (fun x => k))
  (at level 61, m at next level, right associativity) : py_scope.
Notation "m ;; k" := (bind m (fun _ => k))
  (at level 61, right associativity) : py_scope.
Open Scope py_scope.

(** [print(a)] and [print(a, b)] *)
Definition print (a : pystr) : M unit :=
  fun w => (Return tt, World (tree w) (stdout w ++ [a])).

Definition print2 (a b : pystr) : M unit := print (a ++ 32%N :: b).

(** [sys.exit(code)] *)
Definition sys_exit {A} (code : Z) : M A := raise (SystemExit code).

(** A [for] loop without [break], its body acting on the variables [S]. *)
Fixpoint for_each {A S} (l : list A) (body : A -> S -> M S) (s : S) : M S :=
  match l with
  | [] => ret s
  | x :: l' => s' <- body x s ;; for_each l' body s'
  end.

(** ** The library calls of the script, in the monad *)

Definition os_path_isfile (p : pystr) : M bool := fun w => (Return (os.isfile (tree w) p), w).
Definition os_path_isdir (p : pystr) : M bool := fun w => (Return (os.isdir (tree w) p), w).
Definition os_walk (top : pystr) : M (list (pystr * list pystr * list pystr)) :=
  fun w => (Return (os.walk (tree w) top), w).

(** An open file: the components of its path from the root. *)
Definition handle := list pystr.

(** [open(p, 'r')] *)
Definition open_r (p : pystr) : M handle :=
  fun w =>
    if str_eqb p [] then (Raise (OSError os.ENOENT), w)
    else
      match os.resolve (tree w) [] (path.split p) with
      | inl e => (Raise (OSError e), w)
      | inr r =>
          match os.get (tree w) r with
          | Some (File _ _) => (Return r, w)
          | Some (Dir _) => (Raise (OSError os.EISDIR), w)
          | None => (Raise (OSError os.ENOENT), w)
          end
      end.

(** [open(p, 'w')]: the file exists and is empty from here on. *)
Definition open_w (p : pystr) : M handle :=
  fun w =>
    match os.create (tree w) p with
    | inl e => (Raise (OSError e), w)
    | inr (h, t') => (Return h, World t' (stdout w))
    end.

(** [fd.read()] *)
Definition fd_read (h : handle) : M pystr :=
  fun w =>
    match os.get (tree w) h with
    | Some (File (Some t) _) => (Return t, w)
    | Some (File None _) => (Raise UnicodeDecodeError, w)
    | _ => (Raise (OSError os.ENOENT), w)
    end.

(** [fd.write(s)]; what is written is text, not a DICOM file. *)
Definition fd_write (h : handle) (s : pystr) : M unit :=
  fun w =>
    match os.get (tree w) h with
    | Some (File (Some t) _) =>
        (Return tt, World (os.put (tree w) h (File (Some (t ++ s)) None)) (stdout w))
    | _ => (Raise (OSError os.ENOENT), w)
    end.

(** [fd.close()] *)
Definition fd_close (h : handle) : M unit := ret tt.

(** [json.load(fd)] *)
Definition json_load (fd : handle) : M value :=
  s <- fd_read fd ;;
  match json.loads s with
  | Some v => ret v
  | None => raise JSONDecodeError
  end.

(** [json.dump(obj, fd, indent=indent, separators=(item_sep, key_sep))] *)
Definition json_dump (obj : value) (fd : handle) (indent : nat)
    (item_sep key_sep : pystr) : M unit :=
  fd_write fd (json.dumps indent item_sep key_sep obj).

(** [dicom.read_file(p)] *)
Definition dicom_read_file (p : pystr) : M Dataset :=
  fun w =>
    match os.stat (tree w) p with
    | inr (File _ (Some ds)) => (Return ds, w)
    | inr (File _ None) => (Raise InvalidDicomError, w)
    | inr (Dir _) => (Raise (OSError os.EISDIR), w)
    | inl e => (Raise (OSError e), w)
    end.

(** [hasattr(ds, name)] and [ds.name] for a data set. *)
Definition ds_hasattr (ds : Dataset) (name : pystr) : bool :=
  match dict.get ds name with Some _ => true | None => false end.

Definition ds_getattr (ds : Dataset) (name : pystr) : value :=
  match dict.get ds name with Some v => v | None => PNone end.

(* ================================================================== *)
(** * The script *)

(** ** Names

    [main] assigns [parser], [args], [dcm_root_dir], [prot_dict_json],
    [prot_dict], [first_pass] and [series_list]; any other name it reads
    is looked up in the module, then among the builtins. *)
Inductive binding :=
| Data (v : value)
| Module
| Function.

Definition module_globals : list (pystr * binding) :=
  [ (u "__name__", Data (PStr (u "__main__")));
    (u "__version__", Data (PStr (u "0.1")));
    (u "os", Module); (u "sys", Module); (u "argparse", Module);
    (u "shutil", Module); (u "json", Module); (u "dicom", Module);
    (u "glob", Function);
    (u "main", Function); (u "scan_dicom_series", Function);
    (u "bids_dcm_info", Function); (u "bids_load_prot_dict", Function);
    (u "bids_create_prot_dict", Function) ].

(** The functions of [builtins] (its exception classes are not listed). *)
Definition builtin_names : list pystr :=
  map u
    [ "abs"; "all"; "any"; "ascii"; "bin"; "bool"; "breakpoint"; "bytearray";
      "bytes"; "callable"; "chr"; "classmethod"; "compile"; "complex";
      "delattr"; "dict"; "dir"; "divmod"; "enumerate"; "eval"; "exec";
      "filter"; "float"; "format"; "frozenset"; "getattr"; "globals";
      "hasattr"; "hash"; "help"; "hex"; "id"; "input"; "int"; "isinstance";
      "issubclass"; "iter"; "len"; "list"; "locals"; "map"; "max";
      "memoryview"; "min"; "next"; "object"; "oct"; "open"; "ord"; "pow";
      "print"; "property"; "range"; "repr"; "reversed"; "round"; "set";
      "setattr"; "slice"; "sorted"; "staticmethod"; "str"; "sum"; "super";
      "tuple"; "type"; "vars"; "zip"; "__import__"; "exit"; "quit" ]%string.

(** Reading a name that is not local to the function. *)
Definition load_global (name : pystr) : M binding :=
  match dict.get module_globals name with
  | Some b => ret b
  | None =>
      if existsb (str_eqb name) builtin_names then ret Function
      else raise (NameError name)
  end.

(** [os.path.isdir(x)] for whatever a name is bound to. *)
Definition isdir_of (b : binding) : M bool :=
  match b with
  | Data (PStr p) => os_path_isdir p
  | _ => raise TypeError
  end.

(** ** [scan_dicom_series(dcm_dir)] *)
Definition scan_dicom_series (dcm_dir : pystr) : M (list value) :=
  let series_list : list value := [] in
  triples <- os_walk dcm_dir ;;
  series_list <-
    for_each triples
      (fun (t : pystr * list pystr * list pystr) (series_list : list value) =>
         let '(root, dirs, files) := t in
         let path := path.split root in
         print2 (str_mul (length path - 1) (u "---")) (path.basename root) ;;
         for_each files
           (fun file (_ : unit) => print2 (str_mul (length path) (u "---")) file) tt ;;
         ret series_list)
      series_list ;;
  ret series_list.

(** ** [bids_dcm_info(dcm_dir)] *)

(** The variable [ds]: the empty list it starts as, or a data set read. *)
Definition ds_truthy (ds : option Dataset) : bool :=
  match ds with
  | None => false
  | Some d => truthy (PDict d)
  end.

(** The inner loop [for file in files], with its [break]. *)
Fixpoint read_first_valid (subdir : pystr) (files : list pystr)
    (ds : option Dataset) : M (option Dataset) :=
  match files with
  | [] => ret ds
  | file :: files' =>
      ds <- try_except
              (d <- dicom_read_file (path.join subdir file) ;; ret (Some d))
              (ret ds) ;;
      if ds_truthy ds then ret ds
      else read_first_valid subdir files' ds
  end.

Definition bids_dcm_info (dcm_dir : pystr) : M value :=
  let ds : option Dataset := None in
  let dcm_info : list (pystr * value) := [] in
  triples <- os_walk dcm_dir ;;
  ds <- for_each triples
          (fun (t : pystr * list pystr * list pystr) ds =>
             let '(subdir, dirs, files) := t in
             read_first_valid subdir files ds)
          ds ;;
  match ds with
  | Some d =>
      if ds_truthy ds then
        let dcm_info :=
          if ds_hasattr d (u "PatientSex")
          then dict.set dcm_info (u "Sex") (ds_getattr d (u "PatientSex"))
          else dict.set dcm_info (u "Sex") (PStr (u "Unknown")) in
        let dcm_info :=
          if ds_hasattr d (u "PatientAge")
          then dict.set dcm_info (u "Age") (ds_getattr d (u "PatientAge"))
          else dict.set dcm_info (u "Age") (PInt 0) in
        ret (PDict dcm_info)
      else
        print (u "* No DICOM header information found in " ++ dcm_dir) ;;
        print (u "* Confirm that DICOM images in this folder are uncompressed") ;;
        print (u "* Exiting") ;;
        sys_exit 1
  | None =>
      print (u "* No DICOM header information found in " ++ dcm_dir) ;;
      print (u "* Confirm that DICOM images in this folder are uncompressed") ;;
      print (u "* Exiting") ;;
      sys_exit 1
  end.

(** ** [bids_load_prot_dict(prot_dict_json)] *)
Definition bids_load_prot_dict (prot_dict_json : pystr) : M value :=
  isf <- os_path_isfile prot_dict_json ;;
  if isf then
    json_fd <- open_r prot_dict_json ;;
    prot_dict <- json_load json_fd ;;
    fd_close json_fd ;;
    ret prot_dict
  else
    ret (PDict []).

(** ** [bids_create_prot_dict(prot_dict_json, prot_dict)] *)
Definition bids_create_prot_dict (prot_dict_json : pystr) (prot_dict : value) : M unit :=
  isf <- os_path_isfile prot_dict_json ;;
  if isf then
    print (u "* Protocol dictionary already exists : " ++ prot_dict_json) ;;
    print (u "* Skipping creation of new dictionary")
  else
    json_fd <- open_w prot_dict_json ;;
    json_dump prot_dict json_fd 4 (u ",") (u ":") ;;
    fd_close json_fd ;;
    print [] ;;
    print (u "---") ;;
    print (u "New protocol dictionary created : " ++ prot_dict_json) ;;
    print (u "Remember to replace " ++ dq (u "EXCLUDE")
           ++ u " values in dictionary with an appropriate image description") ;;
    print (u "For example " ++ dq (u "MP-RAGE T1w 3D structural")
           ++ u " or " ++ 34%N :: u "MB-EPI BOLD resting-state") ;;
    print (u "---") ;;
    print [].

(** ** [main()]

    [indir] is the value of the [-i] option, if given. The test
    [prot_dict and os.path.isdir(bids_root_dir)] reads [bids_root_dir]
    only when [prot_dict] is true. *)
Definition banner_pass1 : pystr := u "Pass 1 : Scan DICOM folders and create dictionary".
Definition banner_pass2 : pystr := u "Pass 2 : Organizing Nifti data into BIDS directories".
Definition rule : pystr := u "------------------------------------------------------------".

(** The condition [prot_dict and os.path.isdir(bids_root_dir)]. *)
Definition pass2_test (prot_dict : value) : M bool :=
  if truthy prot_dict
  then bids_root_dir <- load_global (u "bids_root_dir") ;;
       isdir_of bids_root_dir
  else ret false.

Definition main (indir : option pystr) : M unit :=
  let dcm_root_dir := match indir with Some d => d | None => u "dicom" end in
  let prot_dict_json := path.join dcm_root_dir (u "Protocol_Translator.json") in
  prot_dict <- bids_load_prot_dict prot_dict_json ;;
  ready <- pass2_test prot_dict ;;
  (if ready then
     print [] ;; print rule ;; print banner_pass2 ;; print rule ;;
     let first_pass := false in
     ret tt
   else
     print [] ;; print rule ;; print banner_pass1 ;; print rule ;;
     let first_pass := true in
     series_list <- scan_dicom_series dcm_root_dir ;;
     ret tt) ;;
  sys_exit 0.

(** The exit status of the process that runs [main()]: the code given to
    [sys.exit], and 1 after a traceback for any other exception. *)
Definition exit_status {A} (o : outcome A) : Z :=
  match o with
  | Return _ => 0
  | Raise (SystemExit code) => code
  | Raise _ => 1
  end.

(* ================================================================== *)
(** * Notions used in the statements *)

(** ** The progress trace of the scanner *)

(** The lines printed for one item of the walk: the directory, then its
    files one level deeper. *)
Definition trace_item (t : pystr * list pystr * list pystr) : list pystr :=
  let '(root, _, files) := t in
  let path := path.split root in
  (str_mul (length path - 1) (u "---") ++ 32%N :: path.basename root)
  :: map (fun file => str_mul (length path) (u "---") ++ 32%N :: file) files.

Definition progress_trace (triples : list (pystr * list pystr * list pystr))
  : list pystr :=
  flat_map trace_item triples.

(** ** The paths and the banner of [main] *)

(** The path of the dictionary for a given [-i] option. *)
Definition dcm_root_dir_of (indir : option pystr) : pystr :=
  match indir with Some d => d | None => u "dicom" end.

Definition prot_dict_json_of (indir : option pystr) : pystr :=
  path.join (dcm_root_dir_of indir) (u "Protocol_Translator.json").

(** The lines [main] prints when it announces the first pass. *)
Definition pass1_banner : list pystr := [[]; rule; banner_pass1; rule].

(** ** The header reader as a function of the tree *)

(** What [dicom.read_file] returns for the file at a path, if it returns. *)
Definition header_at (t : node) (p : pystr) : option Dataset :=
  match os.stat t p with
  | inr (File _ (Some ds)) => Some ds
  | _ => None
  end.

(** One pass of the [try] statement: [ds] after it. *)
Definition attempt (t : node) (p : pystr) (ds : option Dataset) : option Dataset :=
  match header_at t p with
  | Some d => Some d
  | None => ds
  end.

(** The inner loop and the whole walk as functions of the tree. *)
Fixpoint first_valid (t : node) (subdir : pystr) (files : list pystr)
    (ds : option Dataset) : option Dataset :=
  match files with
  | [] => ds
  | file :: files' =>
      let ds := attempt t (path.join subdir file) ds in
      if ds_truthy ds then ds else first_valid t subdir files' ds
  end.

Definition last_valid (t : node) (triples : list (pystr * list pystr * list pystr))
    (ds : option Dataset) : option Dataset :=
  fold_left (fun ds (x : pystr * list pystr * list pystr) =>
               let '(subdir, _, files) := x in first_valid t subdir files ds)
    triples ds.

(** The dictionary built from a data set. *)
Definition info_of (d : Dataset) : value :=
  PDict [ (u "Sex", match dict.get d (u "PatientSex") with
                    | Some v => v
                    | None => PStr (u "Unknown")
                    end);
          (u "Age", match dict.get d (u "PatientAge") with
                    | Some v => v
                    | None => PInt 0
                    end) ].

Definition no_header_lines (dcm_dir : pystr) : list pystr :=
  [ u "* No DICOM header information found in " ++ dcm_dir;
    u "* Confirm that DICOM images in this folder are uncompressed";
    u "* Exiting" ].

(** What [dicom.read_file] gives for every file of the walk, in order. *)
Definition headers_read (t : node) (dcm_dir : pystr) : list (option Dataset) :=
  flat_map (fun x : pystr * list pystr * list pystr =>
              let '(subdir, _, files) := x in
              map (fun file => header_at t (path.join subdir file)) files)
    (os.walk t dcm_dir).

(** The same two loops on the list of what each file of a directory
    gives, and on the list of those lists. *)
Fixpoint pick (hs : list (option Dataset)) (ds : option Dataset) : option Dataset :=
  match hs with
  | [] => ds
  | h :: hs' =>
      let ds := match h with Some d => Some d | None => ds end in
      if ds_truthy ds then ds else pick hs' ds
  end.

Definition pick_all (hss : list (list (option Dataset))) (ds : option Dataset)
  : option Dataset :=
  fold_left (fun ds hs => pick hs ds) hss ds.

Definition headers_of (t : node) (x : pystr * list pystr * list pystr)
  : list (option Dataset) :=
  let '(subdir, _, files) := x in
  map (fun file => header_at t (path.join subdir file)) files.

(** ** Growth of a file tree *)

(** The kind of what a path leads to: a directory or a regular file. *)
Definition kind_at (t : node) (x : list pystr) : option bool :=
  match os.get t x with
  | Some (Dir _) => Some true
  | Some (File _ _) => Some false
  | None => None
  end.

(** [t'] has all that [t] has, of the same kind. *)
Definition grows (t t' : node) : Prop :=
  forall x k, kind_at t x = Some k -> kind_at t' x = Some k.

(** ** What [bids_create_prot_dict] prints and writes *)

Definition skipped_lines (p : pystr) : list pystr :=
  [ u "* Protocol dictionary already exists : " ++ p;
    u "* Skipping creation of new dictionary" ].

Definition created_lines (p : pystr) : list pystr :=
  [ [];
    u "---";
    u "New protocol dictionary created : " ++ p;
    u "Remember to replace " ++ dq (u "EXCLUDE")
      ++ u " values in dictionary with an appropriate image description";
    u "For example " ++ dq (u "MP-RAGE T1w 3D structural")
      ++ u " or " ++ 34%N :: u "MB-EPI BOLD resting-state";
    u "---";
    [] ].

(** The text [json.dump(prot_dict, json_fd, indent=4, separators=(',', ':'))]
    writes. *)
Definition dict_text (prot_dict : value) : pystr :=
  json.dumps 4 (u ",") (u ":") prot_dict.

(** ** Dictionaries from strings to strings *)

(** A Unicode scalar value: a code point that is not a surrogate. *)
Definition is_scalar (c : N) : bool :=
  (c <? 1114112)%N && negb ((55296 <=? c)%N && (c <=? 57343)%N).

(** The dictionary of a list of pairs of strings. *)
Definition str_dict (kvs : list (pystr * pystr)) : list (pystr * value) :=
  map (fun kv : pystr * pystr => (fst kv, PStr (snd kv))) kvs.

(** One line of the file: the key, a colon, the value. *)
Definition item (kv : pystr * pystr) : pystr :=
  json.encode_basestring_ascii (fst kv)
  ++ 58%N :: json.encode_basestring_ascii (snd kv).

(** A comma, a new line and the indentation of one level. *)
Definition line_sep : pystr := [44; 10; 32; 32; 32; 32]%N.

(** Key and value are strings of scalar values. *)
Definition ok_item (kv : pystr * pystr) : bool :=
  forallb is_scalar (fst kv) && forallb is_scalar (snd kv).

(** ** Progress of the decoder *)

(** A scanner does not starve, and what it leaves is shorter than what
    it was given. *)
Definition consumes {A} (x : json.scan A) (s : pystr) : Prop :=
  x <> json.Starved /\ forall a r, x = json.Parsed a r -> (length r < length s)%nat.

(** ** Sample trees *)

Module Demo.

(** An ASCII literal in which the apostrophe stands for the double quote. *)
Definition jtext (s : string) : pystr :=
  map (fun c => if N.eqb c 39 then 34%N else c) (u s).

Definition t1w : Dataset :=
  [ (u "PatientSex", PStr (u "M"));
    (u "SeriesDescription", PStr (u "T1w")) ].

Definition rest : Dataset :=
  [ (u "PatientSex", PStr (u "F"));
    (u "PatientAge", PStr (u "034Y"));
    (u "SeriesDescription", PStr (u "rest")) ].

(** An anonymised header: neither sex nor age. *)
Definition anon : Dataset :=
  [ (u "SeriesDescription", PStr (u "T1w")) ].

Definition image (d : Dataset) : node := File None (Some d).
Definition notes : node := File (Some (u "scanner notes")) None.

(** [dicom/A/ses1] with notes and two images, [dicom/B/ses1] with one. *)
Definition study : node :=
  Dir [ (u "dicom",
         Dir [ (u "A", Dir [ (u "ses1",
                  Dir [ (u "notes.txt", notes);
                        (u "0001.dcm", image t1w);
                        (u "0002.dcm", image rest) ]) ]);
               (u "B", Dir [ (u "ses1",
                  Dir [ (u "0001.dcm", image t1w) ]) ]) ]) ].

(** The same study once the user has a dictionary and an output tree. *)
Definition edited : pystr :=
  jtext "{ 'T1w':'anat/T1w', 'rest':'EXCLUDE' }".

Definition prepared : node :=
  Dir [ (u "dicom",
         Dir [ (u "A", Dir [ (u "ses1", Dir [ (u "0001.dcm", image t1w) ]) ]);
               (u "Protocol_Translator.json", File (Some edited) None) ]);
        (u "source", Dir []) ].

(** A dictionary file that is not JSON. *)
Definition broken : node :=
  Dir [ (u "dicom",
         Dir [ (u "Protocol_Translator.json",
                File (Some (jtext "{ 'T1w': ")) None) ]) ].

(** A session whose images lie in a folder per series, after one image
    at the top. *)
Definition nested_session : node :=
  Dir [ (u "ses1",
         Dir [ (u "0001.dcm", image t1w);
               (u "series2", Dir [ (u "0001.dcm", image rest) ]) ]) ].

(** A session with one file, which reads as a data set with no element. *)
Definition empty_header_session : node :=
  Dir [ (u "ses1", Dir [ (u "0001.dcm", image []) ]) ].

Definition anon_session : node :=
  Dir [ (u "ses1", Dir [ (u "notes.txt", notes); (u "0001.dcm", image anon) ]) ].

Definition unreadable_session : node :=
  Dir [ (u "ses1", Dir [ (u "notes.txt", notes) ]) ].

End Demo.

(** ** The scanner the specification describes *)

Section SpecScanner.

(** The series key extractor of the specification and the equality of
    its keys. *)
Variable SeriesKey : Type.
Variable key_eqb : SeriesKey -> SeriesKey -> bool.
Variable series_key : Dataset -> SeriesKey.

(** The files of the subject/session directories under the root: two
    levels of directories, then the files, in the order of the listing. *)
Definition session_files (t : node) (root : pystr) : list node :=
  match os.stat t root with
  | inr (Dir subjects) =>
      flat_map (fun s : pystr * node =>
        match snd s with
        | Dir sessions =>
            flat_map (fun e : pystr * node =>
              match snd e with
              | Dir files =>
                  flat_map (fun f : pystr * node =>
                    match snd f with
                    | File _ _ => [snd f]
                    | Dir _ => []
                    end) files
              | File _ _ => []
              end) sessions
        | File _ _ => []
        end) subjects
  | _ => []
  end.

(** In the words of the specification: for every file, attempt the
    extraction of a key, skip the file if its header does not parse, and
    return the distinct keys in first-seen order. *)
Definition spec_tree_scanner (t : node) (root : pystr) : list SeriesKey :=
  fold_left
    (fun seen f =>
       match f with
       | File _ (Some d) =>
           if existsb (key_eqb (series_key d)) seen then seen
           else seen ++ [series_key d]
       | _ => seen
       end)
    (session_files t root) [].

End SpecScanner.

Arguments spec_tree_scanner {SeriesKey} key_eqb series_key t root.

(** The key the docstring of [scan_dicom_series] names: the series
    description. *)
Definition series_description (d : Dataset) : pystr :=
  match dict.get d (u "SeriesDescription") with
  | Some (PStr s) => s
  | _ => []
  end.

(** ** Bootstrap, then load *)

(** The template for a list of series keys: each mapped to the sentinel. *)
Definition exclude_template (K : list pystr) : list (pystr * value) :=
  map (fun k => (k, PStr (u "EXCLUDE"))) K.

(** The world after [bids_create_prot_dict] has run. *)
Definition after_bootstrap (p : pystr) (d : list (pystr * value)) (w : world) : world :=
  snd (bids_create_prot_dict p (PDict d) w).

(** The claim read on the code, where bootstrap receives a dictionary:
    whatever dictionary with key set [K] it writes, loading the file
    gives the key set [K] and only the sentinel as value. *)
Definition bootstrap_excludes_all : Prop :=
  forall (d : list (pystr * value)) (p : pystr) (w : world),
    os.isfile (tree w) p = false ->
    fst (bids_create_prot_dict p (PDict d) w) = Return tt ->
    exists d',
      fst (bids_load_prot_dict p (after_bootstrap p d w)) = Return (PDict d')
      /\ dict.keys d' = dict.keys d
      /\ forall v, In v (dict.values d') -> v = PStr (u "EXCLUDE").

(** ** The header reader, as claimed *)

(** The claim read on the code: exit with status 1 when no file under the
    directory can be read as a header; the metadata of a header that was
    read, with the two defaults, when at least one file can. *)
Definition header_reader_claim : Prop :=
  forall (dcm_dir : pystr) (w : world),
    let hs := headers_read (tree w) dcm_dir in
    ((forall h, In h hs -> h = None) ->
     fst (bids_dcm_info dcm_dir w) = Raise (SystemExit 1))
    /\ ((exists d, In (Some d) hs) ->
        exists d, In (Some d) hs /\ fst (bids_dcm_info dcm_dir w) = Return (info_of d)).

(* ================================================================== *)
(** * Basic facts *)

Unset Implicit Arguments.

Lemma str_eqb_refl (a : pystr) : str_eqb a a = true.
Proof.
  induction a as [|x a IH]; simpl; [reflexivity|].
  now rewrite N.eqb_refl, IH.
Qed.

Lemma str_eqb_eq (a b : pystr) : str_eqb a b = true <-> a = b.
Proof.
  split.
  - revert b; induction a as [|x a IH]; intros [|y b] H; simpl in H;
      try discriminate; [reflexivity|].
    apply andb_true_iff in H as [Hx Hr].
    apply N.eqb_eq in Hx. apply IH in Hr. now subst.
  - intros ->. apply str_eqb_refl.
Qed.

Lemma str_eqb_neq (a b : pystr) : str_eqb a b = false <-> a <> b.
Proof.
  split.
  - intros H E. apply str_eqb_eq in E. congruence.
  - intros H. destruct (str_eqb a b) eqn:E; [|reflexivity].
    apply str_eqb_eq in E. contradiction.
Qed.

Lemma world_eta (w : world) : World (tree w) (stdout w) = w.
Proof. now destruct w. Qed.

(** Unfold the monad's plumbing in the goal. *)
Ltac run :=
  unfold bind, ret, raise, sys_exit, print2, print, try_except,
    os_path_isfile, os_path_isdir, os_walk, fd_close; simpl.

(* ================================================================== *)
(** * The tree scanner: [scan_dicom_series] *)

Section Scanner.

Lemma print_files (pre : pystr) (files : list pystr) (w : world) :
  for_each files (fun file (_ : unit) => print2 pre file) tt w
  = (Return tt,
     World (tree w) (stdout w ++ map (fun file => pre ++ 32%N :: file) files)).
Proof.
  revert w; induction files as [|f files IH]; intros w; simpl.
  - run. now rewrite app_nil_r, world_eta.
  - unfold bind at 1. unfold print2 at 1, print at 1.
    rewrite IH. simpl. now rewrite <- app_assoc.
Qed.

(** The loop over the walk leaves [series_list] as it found it. *)
Lemma walk_loop_keeps_list (triples : list (pystr * list pystr * list pystr))
    (series_list : list value) (w : world) :
  for_each triples
    (fun (t : pystr * list pystr * list pystr) (series_list : list value) =>
       let '(root, dirs, files) := t in
       let path := path.split root in
       print2 (str_mul (length path - 1) (u "---")) (path.basename root) ;;
       for_each files
         (fun file (_ : unit) => print2 (str_mul (length path) (u "---")) file) tt ;;
       ret series_list)
    series_list w
  = (Return series_list, World (tree w) (stdout w ++ progress_trace triples)).
Proof.
  revert w; induction triples as [|[[root dirs] files] triples IH]; intros w.
  - simpl. run. now rewrite app_nil_r, world_eta.
  - cbn [for_each]. unfold bind at 1. unfold bind at 1.
    unfold print2 at 1, print at 1. unfold bind at 1.
    rewrite print_files. unfold ret at 1. rewrite IH.
    cbn [tree stdout progress_trace flat_map trace_item].
    now rewrite <- !app_assoc.
Qed.

(** A run of [scan_dicom_series]: the trace is printed, the list that is
    returned is the one the function started with. *)
Lemma scan_dicom_series_run (dcm_dir : pystr) (w : world) :
  scan_dicom_series dcm_dir w
  = (Return [],
     World (tree w) (stdout w ++ progress_trace (os.walk (tree w) dcm_dir))).
Proof.
  unfold scan_dicom_series.
  unfold bind at 1. unfold os_walk at 1.
  unfold bind at 1. rewrite walk_loop_keeps_list. reflexivity.
Qed.

End Scanner.

(* ================================================================== *)
(** * The protocol dictionary: [bids_load_prot_dict] *)

Section Load.

(** What [bids_load_prot_dict] does, by what is found at the path: a
    regular file is read and decoded, anything else gives [dict()]. The
    file tree and the output are left as they were. *)
Lemma bids_load_prot_dict_spec (p : pystr) (w : world) :
  bids_load_prot_dict p w
  = (match os.stat (tree w) p with
     | inr (File (Some t) _) =>
         match json.loads t with
         | Some v => Return v
         | None => Raise JSONDecodeError
         end
     | inr (File None _) => Raise UnicodeDecodeError
     | _ => Return (PDict [])
     end, w).
Proof.
  unfold bids_load_prot_dict, bind at 1, os_path_isfile, os.isfile, os.stat.
  destruct (str_eqb p []) eqn:Ep; [reflexivity|].
  destruct (os.resolve (tree w) [] (path.split p)) as [e|r] eqn:Er; [reflexivity|].
  destruct (os.get (tree w) r) as [[t d|es]|] eqn:Eg; try reflexivity.
  unfold bind at 1, open_r. rewrite Ep, Er, Eg.
  unfold bind at 1, json_load, bind at 1, fd_read. rewrite Eg.
  destruct t as [t|]; [|reflexivity].
  destruct (json.loads t); reflexivity.
Qed.

Lemma bids_load_prot_dict_world (p : pystr) (w : world) :
  snd (bids_load_prot_dict p w) = w.
Proof. now rewrite bids_load_prot_dict_spec. Qed.

End Load.

(* ================================================================== *)
(** * Pass selection in [main] *)

Section Main.

(** No binding of [bids_root_dir]: not in the module, not a builtin. *)
Lemma bids_root_dir_undefined (w : world) :
  load_global (u "bids_root_dir") w = (Raise (NameError (u "bids_root_dir")), w).
Proof. reflexivity. Qed.

(** The test of [main] never comes out true: a false [prot_dict] decides
    it, a true one leads to the unbound name. *)
Lemma pass2_test_outcome (prot_dict : value) (w : world) :
  pass2_test prot_dict w
  = (if truthy prot_dict then Raise (NameError (u "bids_root_dir")) else Return false, w).
Proof.
  unfold pass2_test. destruct (truthy prot_dict); reflexivity.
Qed.

(** [main] by the outcome of loading the dictionary. *)
Lemma main_spec (indir : option pystr) (w : world) :
  main indir w
  = match fst (bids_load_prot_dict (prot_dict_json_of indir) w) with
    | Return v =>
        if truthy v then (Raise (NameError (u "bids_root_dir")), w)
        else (Raise (SystemExit 0),
              World (tree w)
                (stdout w ++ pass1_banner
                 ++ progress_trace (os.walk (tree w) (dcm_root_dir_of indir))))
    | Raise e => (Raise e, w)
    end.
Proof.
  unfold main. fold (dcm_root_dir_of indir). fold (prot_dict_json_of indir).
  unfold bind at 1.
  pose proof (bids_load_prot_dict_world (prot_dict_json_of indir) w) as Hw.
  destruct (bids_load_prot_dict (prot_dict_json_of indir) w) as [[v|e] w'];
    simpl in Hw; subst w'; simpl fst; [|reflexivity].
  unfold bind at 1. rewrite pass2_test_outcome.
  destruct (truthy v); [reflexivity|].
  unfold bind at 1. unfold bind at 1. unfold print at 1.
  unfold bind at 1. unfold print at 1.
  unfold bind at 1. unfold print at 1.
  unfold bind at 1. unfold print at 1.
  unfold bind at 1. rewrite scan_dicom_series_run.
  unfold ret, sys_exit, raise. cbn [tree stdout].
  unfold pass1_banner. now rewrite <- !app_assoc.
Qed.

End Main.

(* ================================================================== *)
(** * The header reader: [bids_dcm_info] *)

Section HeaderReader.

Lemma try_read (p : pystr) (ds : option Dataset) (w : world) :
  try_except (d <- dicom_read_file p ;; ret (Some d)) (ret ds) w
  = (Return (attempt (tree w) p ds), w).
Proof.
  unfold try_except, bind, dicom_read_file, attempt, header_at, ret.
  destruct (os.stat (tree w) p) as [e|[t [d|]|es]]; reflexivity.
Qed.

Lemma read_first_valid_run (subdir : pystr) (files : list pystr)
    (ds : option Dataset) (w : world) :
  read_first_valid subdir files ds w
  = (Return (first_valid (tree w) subdir files ds), w).
Proof.
  revert ds; induction files as [|f files IH]; intros ds; [reflexivity|].
  cbn [read_first_valid first_valid]. unfold bind at 1. rewrite try_read.
  destruct (ds_truthy (attempt (tree w) (path.join subdir f) ds)); [reflexivity|].
  apply IH.
Qed.

Lemma header_walk_run (triples : list (pystr * list pystr * list pystr))
    (ds : option Dataset) (w : world) :
  for_each triples
    (fun (t : pystr * list pystr * list pystr) ds =>
       let '(subdir, dirs, files) := t in read_first_valid subdir files ds)
    ds w
  = (Return (last_valid (tree w) triples ds), w).
Proof.
  revert ds; induction triples as [|[[subdir dirs] files] triples IH]; intros ds;
    [reflexivity|].
  cbn [for_each]. unfold bind at 1. rewrite read_first_valid_run.
  rewrite IH. reflexivity.
Qed.

(** [bids_dcm_info] by the data set the walk ends with. *)
Lemma bids_dcm_info_run (dcm_dir : pystr) (w : world) :
  bids_dcm_info dcm_dir w
  = match last_valid (tree w) (os.walk (tree w) dcm_dir) None with
    | Some (e :: d) => (Return (info_of (e :: d)), w)
    | _ => (Raise (SystemExit 1),
            World (tree w) (stdout w ++ no_header_lines dcm_dir))
    end.
Proof.
  unfold bids_dcm_info. unfold bind at 1, os_walk at 1.
  unfold bind at 1. rewrite header_walk_run.
  destruct (last_valid (tree w) (os.walk (tree w) dcm_dir) None) as [[|e d]|].
  - cbn [ds_truthy truthy]. run. now rewrite <- !app_assoc.
  - cbn [ds_truthy truthy]. unfold info_of, ds_hasattr, ds_getattr.
    destruct (dict.get (e :: d) (u "PatientSex"));
      destruct (dict.get (e :: d) (u "PatientAge")); reflexivity.
  - run. now rewrite <- !app_assoc.
Qed.

(** ** The loops on the list of what each file gives *)

Lemma first_valid_pick (t : node) (subdir : pystr) (files : list pystr)
    (ds : option Dataset) :
  first_valid t subdir files ds
  = pick (map (fun file => header_at t (path.join subdir file)) files) ds.
Proof.
  revert ds; induction files as [|f files IH]; intros ds; [reflexivity|].
  cbn [first_valid map pick]. unfold attempt. now rewrite IH.
Qed.

Lemma last_valid_pick_all (t : node)
    (triples : list (pystr * list pystr * list pystr)) (ds : option Dataset) :
  last_valid t triples ds = pick_all (map (headers_of t) triples) ds.
Proof.
  unfold last_valid, pick_all.
  revert ds; induction triples as [|[[subdir dirs] files] triples IH]; intros ds;
    [reflexivity|].
  cbn [fold_left map headers_of]. now rewrite first_valid_pick, IH.
Qed.

Lemma headers_read_concat (t : node) (dcm_dir : pystr) :
  headers_read t dcm_dir = concat (map (headers_of t) (os.walk t dcm_dir)).
Proof.
  unfold headers_read. now rewrite flat_map_concat_map.
Qed.

(** Where every data set read is empty, [ds] never becomes true. *)
Lemma pick_falsy (hs : list (option Dataset)) (ds : option Dataset) :
  (forall d, In (Some d) hs -> d = []) ->
  ds_truthy ds = false -> ds_truthy (pick hs ds) = false.
Proof.
  revert ds; induction hs as [|h hs IH]; intros ds Hall Hds; [exact Hds|].
  cbn [pick]. destruct h as [d|].
  - assert (d = []) as -> by (apply Hall; now left).
    cbn. apply IH; [|reflexivity]. intros d' Hd'. apply Hall. now right.
  - rewrite Hds. apply IH; [|exact Hds]. intros d' Hd'. apply Hall. now right.
Qed.

Lemma pick_all_falsy (hss : list (list (option Dataset))) (ds : option Dataset) :
  (forall d, In (Some d) (concat hss) -> d = []) ->
  ds_truthy ds = false -> ds_truthy (pick_all hss ds) = false.
Proof.
  revert ds; induction hss as [|hs hss IH]; intros ds Hall Hds; [exact Hds|].
  cbn [pick_all fold_left]. apply IH.
  - intros d Hd. apply Hall. cbn. apply in_or_app. now right.
  - apply pick_falsy; [|exact Hds].
    intros d Hd. apply Hall. cbn. apply in_or_app. now left.
Qed.

(** Where no data set read is empty, a true [ds] stays true and the first
    file that is read makes it true. *)
Lemma pick_truthy (hs : list (option Dataset)) (ds : option Dataset) :
  ~ In (Some []) hs ->
  ds_truthy ds = true \/ (exists d, In (Some d) hs) ->
  ds_truthy (pick hs ds) = true.
Proof.
  revert ds; induction hs as [|h hs IH]; intros ds Hne H.
  - destruct H as [H|[d []]]. exact H.
  - cbn [pick]. destruct h as [[|e d]|].
    + exfalso. apply Hne. now left.
    + reflexivity.
    + destruct (ds_truthy ds) eqn:Hds; [exact Hds|].
      apply IH.
      * intros Hin. apply Hne. now right.
      * right. destruct H as [H|[d [H|H]]]; try discriminate. now exists d.
Qed.

Lemma pick_all_truthy (hss : list (list (option Dataset))) (ds : option Dataset) :
  ~ In (Some []) (concat hss) ->
  ds_truthy ds = true \/ (exists d, In (Some d) (concat hss)) ->
  ds_truthy (pick_all hss ds) = true.
Proof.
  revert ds; induction hss as [|hs hss IH]; intros ds Hne H.
  - destruct H as [H|[d []]]. exact H.
  - cbn [pick_all fold_left]. cbn [concat] in Hne, H. apply IH.
    + intros Hin. apply Hne. apply in_or_app. now right.
    + destruct H as [H|[d H]].
      * left. apply pick_truthy; [|now left].
        intros Hin. apply Hne. apply in_or_app. now left.
      * apply in_app_or in H as [H|H].
        -- left. apply pick_truthy; [|right; now exists d].
           intros Hin. apply Hne. apply in_or_app. now left.
        -- right. now exists d.
Qed.

(** The data set held at the end is the initial one or one that was read. *)
Lemma pick_from (hs : list (option Dataset)) (ds : option Dataset) :
  pick hs ds = ds \/ In (pick hs ds) hs.
Proof.
  revert ds; induction hs as [|h hs IH]; intros ds; [now left|].
  cbn [pick]. destruct h as [d|].
  - destruct (ds_truthy (Some d)); [right; now left|].
    destruct (IH (Some d)) as [E|E]; [right; left; now rewrite E|right; now right].
  - destruct (ds_truthy ds); [now left|].
    destruct (IH ds) as [E|E]; [now left|right; now right].
Qed.

Lemma pick_all_from (hss : list (list (option Dataset))) (ds : option Dataset) :
  pick_all hss ds = ds \/ In (pick_all hss ds) (concat hss).
Proof.
  revert ds; induction hss as [|hs hss IH]; intros ds; [now left|].
  cbn [pick_all fold_left concat].
  destruct (IH (pick hs ds)) as [E|E].
  - unfold pick_all in E. rewrite E.
    destruct (pick_from hs ds) as [E'|E']; [now left|].
    right. apply in_or_app. now left.
  - right. apply in_or_app. now right.
Qed.

(** Within one directory the first data set with an element is kept, and
    no later file of that directory is read. *)
Lemma pick_first_valid (pre post : list (option Dataset)) (e : pystr * value)
    (d : Dataset) (ds : option Dataset) :
  (forall h, In h pre -> ds_truthy h = false) ->
  ds_truthy ds = false ->
  pick (pre ++ Some (e :: d) :: post) ds = Some (e :: d).
Proof.
  revert ds; induction pre as [|h pre IH]; intros ds Hpre Hds.
  - reflexivity.
  - cbn [app pick]. destruct h as [d'|].
    + rewrite (Hpre (Some d')) by now left.
      apply IH; [|apply Hpre; now left].
      intros h Hh. apply Hpre. now right.
    + rewrite Hds. apply IH; [|exact Hds].
      intros h Hh. apply Hpre. now right.
Qed.

End HeaderReader.

(* ================================================================== *)
(** * The file tree: creating a file *)

Section FileTree.

Lemma get_update_same (c : pystr) (f : node -> node)
    (absent es : list (pystr * node)) :
  dict.get (os.update_entry c f absent es) c
  = match dict.get es c with
    | Some ch => Some (f ch)
    | None => dict.get absent c
    end.
Proof.
  induction es as [|[k ch] es IH]; [reflexivity|].
  cbn [os.update_entry dict.get].
  destruct (str_eqb c k) eqn:E; cbn [dict.get]; rewrite E; [reflexivity|exact IH].
Qed.

Lemma get_update_other (c c' : pystr) (f : node -> node)
    (absent es : list (pystr * node)) :
  c' <> c -> dict.get absent c' = None ->
  dict.get (os.update_entry c f absent es) c' = dict.get es c'.
Proof.
  intros Hne Habs. induction es as [|[k ch] es IH]; [exact Habs|].
  cbn [os.update_entry dict.get].
  destruct (str_eqb c k) eqn:E; cbn [dict.get].
  - apply str_eqb_eq in E. subst k.
    apply str_eqb_neq in Hne. now rewrite Hne.
  - destruct (str_eqb c' k); [reflexivity|exact IH].
Qed.

Lemma get_app (t : node) (x y : list pystr) :
  os.get t (x ++ y)
  = match os.get t x with Some n => os.get n y | None => None end.
Proof.
  revert t; induction x as [|k x IH]; intros t; [reflexivity|].
  cbn [app os.get]. destruct t as [a b|es]; [reflexivity|].
  destruct (dict.get es k); [apply IH|reflexivity].
Qed.

(** After [put], the node is found where it was put. *)
Lemma put_same (r : list pystr) (t : node) (es : list (pystr * node))
    (c : pystr) (n : node) :
  os.get t r = Some (Dir es) ->
  os.get (os.put t (r ++ [c]) n) (r ++ [c]) = Some n.
Proof.
  revert t; induction r as [|k r IH]; intros t Hr.
  - cbn in Hr. injection Hr as ->. cbn [app os.put os.get].
    rewrite get_update_same. destruct (dict.get es c); cbn; [reflexivity|].
    now rewrite str_eqb_refl.
  - cbn [os.get] in Hr. destruct t as [a b|es0]; [discriminate|].
    destruct (dict.get es0 k) as [ch|] eqn:Ek; [|discriminate].
    cbn [app os.put os.get]. rewrite get_update_same, Ek.
    now apply IH.
Qed.

Lemma grows_trans (t1 t2 t3 : node) : grows t1 t2 -> grows t2 t3 -> grows t1 t3.
Proof. intros H1 H2 x k H. apply H2, H1, H. Qed.

(** Writing a regular file where there is none, or another regular file,
    keeps every other path as it was. *)
Lemma put_grows (r : list pystr) (t : node) (es : list (pystr * node))
    (c : pystr) (a : option pystr) (b : option Dataset) :
  os.get t r = Some (Dir es) ->
  (forall es1, dict.get es c <> Some (Dir es1)) ->
  grows t (os.put t (r ++ [c]) (File a b)).
Proof.
  revert t; induction r as [|k0 r IH]; intros t Hr Hc x k.
  - cbn in Hr. injection Hr as ->. cbn [app os.put].
    destruct x as [|k1 x]; [trivial|].
    unfold kind_at. cbn [os.get].
    destruct (str_eqb k1 c) eqn:E.
    + apply str_eqb_eq in E. subst k1. rewrite get_update_same.
      destruct (dict.get es c) as [[a' b'|es1]|] eqn:Ec.
      * destruct x; [trivial|discriminate].
      * now destruct (Hc es1).
      * discriminate.
    + apply str_eqb_neq in E. rewrite get_update_other; [trivial|exact E|].
      cbn. apply str_eqb_neq in E. now rewrite E.
  - cbn [os.get] in Hr. destruct t as [a0 b0|es0]; [discriminate|].
    destruct (dict.get es0 k0) as [ch|] eqn:Ek; [|discriminate].
    cbn [app os.put].
    destruct x as [|k1 x]; [trivial|].
    unfold kind_at. cbn [os.get].
    destruct (str_eqb k1 k0) eqn:E.
    + apply str_eqb_eq in E. subst k1. rewrite get_update_same, Ek.
      apply (IH ch Hr Hc x k).
    + apply str_eqb_neq in E. rewrite get_update_other; [trivial|exact E|].
      now destruct r.
Qed.

Lemma kind_dir (t : node) (x : list pystr) :
  kind_at t x = Some true <-> exists es, os.get t x = Some (Dir es).
Proof.
  unfold kind_at. destruct (os.get t x) as [[a b|es]|]; split;
    try discriminate; try (intros [es' H]; discriminate); eauto.
Qed.

Lemma kind_some (t : node) (x : list pystr) :
  (exists k, kind_at t x = Some k) <-> exists n, os.get t x = Some n.
Proof.
  unfold kind_at. destruct (os.get t x) as [[a b|es]|]; split;
    try (intros [k H]; discriminate); eauto.
Qed.

(** A path that resolves keeps resolving, to the same place. *)
Lemma resolve_grows (t t' : node) (cs cur r : list pystr) :
  grows t t' ->
  os.resolve t cur cs = inr r -> os.resolve t' cur cs = inr r.
Proof.
  intros Hg. revert cur; induction cs as [|c cs IH]; intros cur H; [exact H|].
  cbn [os.resolve] in *.
  destruct (os.get t cur) as [[a b|es]|] eqn:Eg; try discriminate.
  assert (exists es', os.get t' cur = Some (Dir es')) as [es' Eg'].
  { apply kind_dir, Hg, kind_dir. eauto. }
  rewrite Eg'.
  destruct (os.is_dot c); [now apply IH|].
  destruct (os.is_dotdot c); [now apply IH|].
  destruct (dict.get es c) as [ch|] eqn:Ec; [|discriminate].
  assert (exists n, os.get t' (cur ++ [c]) = Some n) as [n Hn].
  { apply kind_some.
    assert (exists k, kind_at t (cur ++ [c]) = Some k) as [k Hk].
    { apply kind_some. rewrite get_app, Eg. cbn. rewrite Ec. eauto. }
    exists k. now apply Hg. }
  rewrite get_app, Eg' in Hn. cbn in Hn.
  destruct (dict.get es' c); [now apply IH|discriminate].
Qed.

Lemma resolve_app (t : node) (cs1 cs2 cur : list pystr) :
  os.resolve t cur (cs1 ++ cs2)
  = match os.resolve t cur cs1 with
    | inr r => os.resolve t r cs2
    | inl e => inl e
    end.
Proof.
  revert cur; induction cs1 as [|c cs1 IH]; intros cur; [reflexivity|].
  cbn [app os.resolve].
  destruct (os.get t cur) as [[a b|es]|]; try reflexivity.
  destruct (os.is_dot c); [apply IH|].
  destruct (os.is_dotdot c); [apply IH|].
  destruct (dict.get es c); [apply IH|reflexivity].
Qed.

Lemma split_nonempty (p : pystr) : path.split p <> [].
Proof.
  induction p as [|c p IH]; cbn; [discriminate|].
  destruct (N.eqb c path.sep); [discriminate|].
  destruct (path.split p); discriminate.
Qed.

(** The file made by [open(p, 'w')] is empty, and once text [s] is put
    in it, [p] leads to a regular file that holds [s]. *)
Lemma create_found (t t' : node) (p : pystr) (h : list pystr) :
  os.create t p = inr (h, t') ->
  os.get t' h = Some (File (Some []) None)
  /\ forall s, os.stat (os.put t' h (File (Some s) None)) p
               = inr (File (Some s) None).
Proof.
  unfold os.create, os.stat.
  destruct (str_eqb p []) eqn:Ep; [discriminate|].
  destruct (os.resolve t [] (removelast (path.split p))) as [e|r] eqn:Er;
    [discriminate|].
  destruct (os.get t r) as [[a b|es]|] eqn:Eg; try discriminate.
  destruct (os.is_dot (last (path.split p) []) || os.is_dotdot (last (path.split p) []))
    eqn:Ed; [discriminate|].
  apply orb_false_iff in Ed as [Ed1 Ed2].
  set (c := last (path.split p) []) in *.
  intros H.
  assert (h = r ++ [c] /\ t' = os.put t (r ++ [c]) (File (Some []) None)
          /\ forall es1, dict.get es c <> Some (Dir es1)) as (-> & -> & Hc).
  { destruct (dict.get es c) as [[a b|es1]|]; try discriminate;
      injection H as <- <-; repeat split; discriminate. }
  clear H.
  pose proof (put_same r _ _ c (File (Some []) None) Eg) as Hsame.
  pose proof (put_grows r _ _ c (Some []) None Eg Hc) as Hg.
  split; [exact Hsame|]. intros s.
  set (t1 := os.put t (r ++ [c]) (File (Some []) None)) in *.
  assert (exists es1, os.get t1 r = Some (Dir es1)) as [es1 Eg1].
  { apply kind_dir, Hg, kind_dir. eauto. }
  assert (forall es2, dict.get es1 c <> Some (Dir es2)) as Hc1.
  { intros es2 E. rewrite get_app, Eg1 in Hsame. cbn in Hsame.
    rewrite E in Hsame. discriminate. }
  pose proof (put_same r _ _ c (File (Some s) None) Eg1) as Hsame2.
  pose proof (put_grows r _ _ c (Some s) None Eg1 Hc1) as Hg2.
  set (t2 := os.put t1 (r ++ [c]) (File (Some s) None)) in *.
  assert (exists es2, os.get t2 r = Some (Dir es2)) as [es2 Eg2].
  { apply kind_dir, Hg2, kind_dir. eauto. }
  rewrite (app_removelast_last [] (split_nonempty p)). fold c.
  rewrite resolve_app.
  pose proof (resolve_grows _ _ _ _ _ (grows_trans _ _ _ Hg Hg2) Er) as Er2.
  unfold pystr in *. rewrite Er2.
  cbn [os.resolve]. fold c. rewrite Eg2, Ed1, Ed2.
  pose proof Hsame2 as H2. rewrite get_app, Eg2 in H2. cbn in H2.
  destruct (dict.get es2 c); [|discriminate].
  unfold pystr in *. now rewrite Hsame2.
Qed.

End FileTree.

(* ================================================================== *)
(** * The protocol dictionary: [bids_create_prot_dict] *)

Section Create.

(** A run of [bids_create_prot_dict]: an existing regular file is
    reported and kept; otherwise the file is opened for writing, which may
    fail, and receives the text of the dictionary. *)
Lemma bids_create_prot_dict_run (p : pystr) (d : value) (w : world) :
  bids_create_prot_dict p d w
  = if os.isfile (tree w) p
    then (Return tt, World (tree w) (stdout w ++ skipped_lines p))
    else match os.create (tree w) p with
         | inl e => (Raise (OSError e), w)
         | inr (h, t') =>
             (Return tt,
              World (os.put t' h (File (Some (dict_text d)) None))
                (stdout w ++ created_lines p))
         end.
Proof.
  unfold bids_create_prot_dict, bind at 1, os_path_isfile.
  destruct (os.isfile (tree w) p).
  - run. now rewrite <- app_assoc.
  - unfold bind at 1, open_w.
    destruct (os.create (tree w) p) as [e|[h t']] eqn:Ec; [reflexivity|].
    destruct (create_found _ _ _ _ Ec) as [Hget _].
    unfold bind at 1, json_dump, fd_write. cbn [tree stdout].
    rewrite Hget. run. unfold created_lines, dict_text.
    now rewrite <- !app_assoc.
Qed.

(** After a run that wrote the dictionary, the path is a regular file
    holding its text. *)
Lemma created_file_stat (p : pystr) (d : value) (w : world)
    (h : list pystr) (t' : node) :
  os.create (tree w) p = inr (h, t') ->
  os.stat (os.put t' h (File (Some (dict_text d)) None)) p
  = inr (File (Some (dict_text d)) None).
Proof.
  intros Ec. destruct (create_found _ _ _ _ Ec) as [_ Hstat]. apply Hstat.
Qed.

(** A second run finds the file tree as the first run left it. *)
Lemma bids_create_prot_dict_twice (p : pystr) (d d' : value) (w : world) :
  tree (snd (bids_create_prot_dict p d' (snd (bids_create_prot_dict p d w))))
  = tree (snd (bids_create_prot_dict p d w)).
Proof.
  rewrite (bids_create_prot_dict_run p d w).
  destruct (os.isfile (tree w) p) eqn:Ef.
  - cbn [snd]. rewrite bids_create_prot_dict_run. cbn [tree]. now rewrite Ef.
  - destruct (os.create (tree w) p) as [e|[h t']] eqn:Ec.
    + cbn [snd]. rewrite bids_create_prot_dict_run, Ef, Ec. reflexivity.
    + cbn [snd]. rewrite bids_create_prot_dict_run. cbn [tree].
      unfold os.isfile. now rewrite (created_file_stat p d w h t' Ec).
Qed.

End Create.

(* ================================================================== *)
(** * json: reading back what was written *)

Section JsonRoundTrip.

Lemma hexval_hexchar (d : N) : (d < 16)%N -> json.hexval (json.hexchar d) = Some d.
Proof.
  intros Hd. unfold json.hexchar, json.hexval.
  destruct (N.ltb_spec d 10).
  - destruct (N.leb_spec 48 (48 + d)); [|lia].
    destruct (N.leb_spec (48 + d) 57); [|lia].
    cbn [andb]. f_equal. lia.
  - destruct (N.leb_spec (87 + d) 57); [lia|]. rewrite andb_false_r.
    destruct (N.leb_spec 97 (87 + d)); [|lia].
    destruct (N.leb_spec (87 + d) 102); [|lia].
    cbn [andb]. f_equal. lia.
Qed.

Lemma hex4_digits (n : N) :
  (n < 65536)%N ->
  json.hex4 (json.hexchar (n / 4096)) (json.hexchar ((n / 256) mod 16))
            (json.hexchar ((n / 16) mod 16)) (json.hexchar (n mod 16)) = Some n.
Proof.
  intros Hn. unfold json.hex4.
  rewrite !hexval_hexchar.
  - f_equal.
    pose proof (N.div_mod' n 16) as H1.
    pose proof (N.div_mod' (n / 16) 16) as H2.
    pose proof (N.div_mod' (n / 256) 16) as H3.
    rewrite N.Div0.div_div in H2, H3.
    change (16 * 16)%N with 256%N in H2. change (256 * 16)%N with 4096%N in H3. lia.
  - apply N.mod_lt. lia.
  - apply N.mod_lt. lia.
  - apply N.mod_lt. lia.
  - apply N.Div0.div_lt_upper_bound. lia.
Qed.

Lemma scanstring_uXXXX (n : N) (tail : pystr) :
  (n < 65536)%N -> json.is_high_surrogate n = false ->
  json.scanstring (json.uXXXX n ++ tail) = json.cons_char n (json.scanstring tail).
Proof.
  intros Hn Hs. unfold json.uXXXX. cbn [app json.scanstring].
  change (N.eqb 92 34) with false. change (N.eqb 92 92) with true.
  change (N.eqb 117 117) with true. cbv iota.
  rewrite (hex4_digits n Hn). rewrite Hs. cbn [andb].
  destruct tail as [|b [|v [|l1 [|l2 [|l3 [|l4 s4]]]]]]; try reflexivity.
  now destruct (json.hex4 l1 l2 l3 l4).
Qed.

(** Bits that do not overlap add up. *)
Lemma lor_shiftl_low (a b k : N) :
  (b < 2 ^ k)%N -> N.lor (N.shiftl a k) b = (a * 2 ^ k + b)%N.
Proof.
  intros Hb.
  assert (N.land (N.shiftl a k) b = 0%N) as Hland.
  { apply N.bits_inj. intros i. rewrite N.land_spec, N.bits_0.
    destruct (N.lt_ge_cases i k) as [Hi|Hi].
    - now rewrite N.shiftl_spec_low.
    - rewrite <- (N.mod_small b (2 ^ k)) by exact Hb.
      rewrite N.mod_pow2_bits_high by exact Hi. apply andb_false_r. }
  rewrite <- N.lxor_lor by exact Hland.
  rewrite <- N.add_nocarry_lxor by exact Hland.
  now rewrite N.shiftl_mul_pow2.
Qed.

Lemma surrogates_of (c : N) :
  (65536 <= c < 1114112)%N ->
  let n := (c - 65536)%N in
  N.lor 55296 (N.land (N.shiftr n 10) 1023) = (55296 + n / 1024)%N
  /\ N.lor 56320 (N.land n 1023) = (56320 + n mod 1024)%N
  /\ (n / 1024 < 1024)%N.
Proof.
  intros Hc n.
  assert (n / 1024 < 1024)%N as Hq.
  { apply N.Div0.div_lt_upper_bound. unfold n. lia. }
  change 1023%N with (N.ones 10). rewrite !N.land_ones, N.shiftr_div_pow2.
  change (2 ^ 10)%N with 1024%N.
  rewrite (N.mod_small (n / 1024) 1024) by exact Hq.
  change 55296%N with (N.shiftl 54 10). change 56320%N with (N.shiftl 55 10).
  rewrite !lor_shiftl_low.
  - now repeat split.
  - apply N.mod_lt. discriminate.
  - exact Hq.
Qed.

Lemma scanstring_pair (hi lo : N) (tail : pystr) :
  (55296 <= hi <= 56319)%N -> (56320 <= lo <= 57343)%N ->
  json.scanstring (json.uXXXX hi ++ json.uXXXX lo ++ tail)
  = json.cons_char (65536 + N.lor (N.shiftl (hi - 55296) 10) (lo - 56320))
      (json.scanstring tail).
Proof.
  intros Hhi Hlo. unfold json.uXXXX. cbn [app json.scanstring].
  change (N.eqb 92 34) with false. change (N.eqb 92 92) with true.
  change (N.eqb 117 117) with true. cbv iota.
  rewrite (hex4_digits hi) by lia. rewrite (hex4_digits lo) by lia.
  replace (json.is_high_surrogate hi) with true.
  2:{ unfold json.is_high_surrogate. symmetry. apply andb_true_iff.
      split; apply N.leb_le; lia. }
  replace (json.is_low_surrogate lo) with true.
  2:{ unfold json.is_low_surrogate. symmetry. apply andb_true_iff.
      split; apply N.leb_le; lia. }
  reflexivity.
Qed.

Lemma scanstring_escape_char (c : N) (tail : pystr) :
  is_scalar c = true ->
  json.scanstring (json.escape_char c ++ tail)
  = json.cons_char c (json.scanstring tail).
Proof.
  intros Hc. unfold is_scalar in Hc.
  apply andb_true_iff in Hc as [Hmax Hsur].
  apply N.ltb_lt in Hmax. apply negb_true_iff in Hsur.
  unfold json.escape_char.
  destruct (N.eqb_spec c 92) as [->|H92]; [reflexivity|].
  destruct (N.eqb_spec c 34) as [->|H34]; [reflexivity|].
  destruct (N.eqb_spec c 8) as [->|H8]; [reflexivity|].
  destruct (N.eqb_spec c 12) as [->|H12]; [reflexivity|].
  destruct (N.eqb_spec c 10) as [->|H10]; [reflexivity|].
  destruct (N.eqb_spec c 13) as [->|H13]; [reflexivity|].
  destruct (N.eqb_spec c 9) as [->|H9]; [reflexivity|].
  destruct ((32 <=? c)%N && (c <=? 126)%N) eqn:Hp.
  - apply andb_true_iff in Hp as [Hlo Hhi]. apply N.leb_le in Hlo.
    cbn [app json.scanstring].
    destruct (N.eqb_spec c 34); [contradiction|].
    destruct (N.eqb_spec c 92); [contradiction|].
    destruct (N.ltb_spec c 32); [lia|reflexivity].
  - destruct (N.ltb_spec c 65536) as [Hb|Hb].
    + apply scanstring_uXXXX; [exact Hb|].
      unfold json.is_high_surrogate.
      destruct (N.leb_spec 55296 c); [|reflexivity].
      destruct (N.leb_spec c 56319); [|reflexivity].
      cbn in Hsur. destruct (N.leb_spec c 57343); [discriminate|lia].
    + destruct (surrogates_of c (conj Hb Hmax)) as (Ehi & Elo & Hq).
      cbv zeta. rewrite Ehi, Elo, <- app_assoc.
      set (n := (c - 65536)%N) in *.
      pose proof (N.mod_lt n 1024 ltac:(discriminate)) as Hr.
      pose proof (N.div_mod' n 1024) as Hdm.
      assert (n = c - 65536)%N as En by reflexivity.
      clearbody n.
      set (q := (n / 1024)%N) in *. set (r := (n mod 1024)%N) in *.
      clearbody q r.
      rewrite scanstring_pair by lia.
      f_equal.
      replace (55296 + q - 55296)%N with q by lia.
      replace (56320 + r - 56320)%N with r by lia.
      rewrite lor_shiftl_low by exact Hr.
      change (2 ^ 10)%N with 1024%N. lia.
Qed.

(** Decoding an encoded string gives the string back. *)
Lemma scanstring_encoded (s rest : pystr) :
  forallb is_scalar s = true ->
  json.scanstring (flat_map json.escape_char s ++ 34%N :: rest) = json.Parsed s rest.
Proof.
  induction s as [|c s IH]; intros Hs; [reflexivity|].
  cbn [forallb] in Hs. apply andb_true_iff in Hs as [Hc Hs].
  cbn [flat_map]. rewrite <- app_assoc, scanstring_escape_char by exact Hc.
  now rewrite IH.
Qed.

(** ** A dictionary from strings to strings *)

Lemma dict_text_str_dict (kv : pystr * pystr) (kvs : list (pystr * pystr)) :
  dict_text (PDict (str_dict (kv :: kvs)))
  = 123%N :: 10%N :: 32%N :: 32%N :: 32%N :: 32%N
    :: json.str_join line_sep (map item (kv :: kvs)) ++ [10; 125]%N.
Proof.
  unfold dict_text, json.dumps, str_dict.
  cbn [map json.iterencode]. rewrite map_map.
  reflexivity.
Qed.

Lemma item_shape (kv : pystr * pystr) (tail : pystr) :
  item kv ++ tail
  = 34%N :: flat_map json.escape_char (fst kv)
    ++ 34%N :: 58%N :: 34%N :: flat_map json.escape_char (snd kv) ++ 34%N :: tail.
Proof.
  unfold item, json.encode_basestring_ascii.
  cbn [app]. rewrite <- !app_assoc. cbn [app]. rewrite <- !app_assoc. reflexivity.
Qed.

Lemma members_S (fuel : nat) (s : pystr) (acc : list (pystr * value)) :
  json.members (S fuel) s acc
  = match s with
    | q :: s0 =>
        if N.eqb q 34 then
          match json.scanstring s0 with
          | json.Parsed key r0 =>
              match json.skip_ws r0 with
              | c0 :: r1 =>
                  if N.eqb c0 58 then
                    match json.scan_once fuel (json.skip_ws r1) with
                    | json.Parsed v r =>
                        match json.skip_ws r with
                        | c :: r' =>
                            if N.eqb c 125 then json.Parsed (dict.set acc key v) r'
                            else if N.eqb c 44 then
                              json.members fuel (json.skip_ws r') (dict.set acc key v)
                            else json.Malformed
                        | [] => json.Malformed
                        end
                    | json.Malformed => json.Malformed
                    | json.Starved => json.Starved
                    end
                  else json.Malformed
              | [] => json.Malformed
              end
          | json.Malformed => json.Malformed
          | json.Starved => json.Starved
          end
        else json.Malformed
    | [] => json.Malformed
    end.
Proof. reflexivity. Qed.

Lemma scan_once_string (fuel : nat) (s : pystr) :
  json.scan_once (S fuel) (34%N :: s)
  = match json.scanstring s with
    | json.Parsed str r => json.Parsed (PStr str) r
    | json.Malformed => json.Malformed
    | json.Starved => json.Starved
    end.
Proof. reflexivity. Qed.

(** One turn of the loop of [JSONObject] on a line of the file. *)
Lemma members_item (f : nat) (kv : pystr * pystr) (tail : pystr)
    (acc : list (pystr * value)) :
  ok_item kv = true ->
  json.members (S (S f)) (item kv ++ tail) acc
  = match json.skip_ws tail with
    | c :: r' =>
        if N.eqb c 125 then json.Parsed (dict.set acc (fst kv) (PStr (snd kv))) r'
        else if N.eqb c 44
             then json.members (S f) (json.skip_ws r') (dict.set acc (fst kv) (PStr (snd kv)))
             else json.Malformed
    | [] => json.Malformed
    end.
Proof.
  intros Hok. apply andb_true_iff in Hok as [Hk Hv].
  rewrite item_shape, members_S.
  change (N.eqb 34 34) with true. cbv iota.
  rewrite (scanstring_encoded _ _ Hk).
  change (json.skip_ws (58%N :: 34%N :: ?x)) with (58%N :: 34%N :: x).
  change (N.eqb 58 58) with true. cbv iota.
  change (json.skip_ws (34%N :: ?x)) with (34%N :: x).
  rewrite scan_once_string, (scanstring_encoded _ _ Hv).
  reflexivity.
Qed.

Lemma join_head (kv : pystr * pystr) (kvs : list (pystr * pystr)) :
  exists tl, json.str_join line_sep (map item (kv :: kvs)) = 34%N :: tl.
Proof.
  destruct kvs as [|kv2 kvs]; cbn [map json.str_join];
    unfold item at 1, json.encode_basestring_ascii at 1; cbn [app]; eauto.
Qed.

Lemma skip_indent (kv : pystr * pystr) (kvs : list (pystr * pystr)) (t : pystr) :
  json.skip_ws (10%N :: 32%N :: 32%N :: 32%N :: 32%N
                :: json.str_join line_sep (map item (kv :: kvs)) ++ t)
  = json.str_join line_sep (map item (kv :: kvs)) ++ t.
Proof.
  destruct (join_head kv kvs) as [tl ->]. reflexivity.
Qed.

(** The loop of [JSONObject] on the lines of the file. *)
Lemma members_lines (kvs : list (pystr * pystr)) (kv : pystr * pystr)
    (fuel : nat) (rest : pystr) (acc : list (pystr * value)) :
  forallb ok_item (kv :: kvs) = true ->
  (length (kv :: kvs) < fuel)%nat ->
  json.members fuel
    (json.str_join line_sep (map item (kv :: kvs)) ++ 10%N :: 125%N :: rest) acc
  = json.Parsed
      (fold_left (fun a (x : pystr * pystr) => dict.set a (fst x) (PStr (snd x)))
         (kv :: kvs) acc)
      rest.
Proof.
  revert kv fuel acc; induction kvs as [|kv2 kvs IH]; intros kv fuel acc Hok Hf.
  - cbn [forallb] in Hok. apply andb_true_iff in Hok as [Hok _].
    destruct fuel as [|[|f]]; [cbn in Hf; lia|cbn in Hf; lia|].
    cbn [map json.str_join]. rewrite (members_item _ _ _ _ Hok).
    reflexivity.
  - cbn [forallb] in Hok. apply andb_true_iff in Hok as [Hok Hoks].
    destruct fuel as [|[|f]]; [cbn in Hf; lia|cbn in Hf; lia|].
    change (json.str_join line_sep (map item (kv :: kv2 :: kvs)))
      with (item kv ++ line_sep ++ json.str_join line_sep (map item (kv2 :: kvs))).
    rewrite <- !app_assoc. rewrite (members_item _ _ _ _ Hok).
    unfold line_sep at 1. cbn [app].
    change (json.skip_ws (44%N :: ?x)) with (44%N :: x).
    change (N.eqb 44 125) with false. change (N.eqb 44 44) with true. cbv iota.
    rewrite skip_indent.
    rewrite IH; [reflexivity|exact Hoks|cbn [length] in *; lia].
Qed.
Lemma dict_get_absent {A} (d : list (pystr * A)) (k : pystr) :
  ~ In k (map fst d) -> dict.get d k = None.
Proof.
  induction d as [|[k' v] d IH]; intros Hk; [reflexivity|].
  cbn [dict.get]. destruct (str_eqb k k') eqn:E.
  - apply str_eqb_eq in E. subst. exfalso. apply Hk. now left.
  - apply IH. intros Hin. apply Hk. now right.
Qed.

Lemma dict_set_fresh {A} (d : list (pystr * A)) (k : pystr) (v : A) :
  ~ In k (map fst d) -> dict.set d k v = d ++ [(k, v)].
Proof.
  induction d as [|[k' v'] d IH]; intros Hk; [reflexivity|].
  cbn [dict.set app]. destruct (str_eqb k k') eqn:E.
  - apply str_eqb_eq in E. subst. exfalso. apply Hk. now left.
  - f_equal. apply IH. intros Hin. apply Hk. now right.
Qed.

(** Filling a dictionary with distinct keys keeps them in order. *)
Lemma fold_set_distinct (kvs : list (pystr * pystr)) (acc : list (pystr * value)) :
  NoDup (map fst acc ++ map fst kvs) ->
  fold_left (fun a (x : pystr * pystr) => dict.set a (fst x) (PStr (snd x))) kvs acc
  = acc ++ str_dict kvs.
Proof.
  revert acc; induction kvs as [|[k v] kvs IH]; intros acc Hnd.
  - cbn. now rewrite app_nil_r.
  - cbn [fold_left fst snd str_dict map].
    rewrite dict_set_fresh.
    + rewrite IH.
      * now rewrite <- app_assoc.
      * rewrite map_app. cbn [map fst]. now rewrite <- app_assoc.
    + cbn [map fst] in Hnd. apply NoDup_remove_2 in Hnd.
      intros Hin. apply Hnd. apply in_or_app. now left.
Qed.

Lemma join_length (kvs : list (pystr * pystr)) :
  (length kvs <= length (json.str_join line_sep (map item kvs)))%nat.
Proof.
  induction kvs as [|kv [|kv2 kvs] IH]; [apply Nat.le_refl| |].
  - cbn [map json.str_join]. unfold item, json.encode_basestring_ascii.
    cbn [app length]. lia.
  - change (json.str_join line_sep (map item (kv :: kv2 :: kvs)))
      with (item kv ++ line_sep ++ json.str_join line_sep (map item (kv2 :: kvs))).
    rewrite !length_app. change (length line_sep) with 6%nat.
    cbn [length] in *. lia.
Qed.

Lemma scan_once_object (fuel : nat) (s : pystr) :
  json.scan_once (S fuel) (123%N :: s)
  = match json.skip_ws s with
    | c1 :: r1 =>
        if N.eqb c1 125 then json.Parsed (PDict []) r1
        else match json.members fuel (c1 :: r1) [] with
             | json.Parsed d r => json.Parsed (PDict d) r
             | json.Malformed => json.Malformed
             | json.Starved => json.Starved
             end
    | [] => json.Malformed
    end.
Proof. reflexivity. Qed.

(** Reading back the text written for a dictionary of strings with
    distinct keys gives the dictionary. *)
Lemma loads_dict_text (kvs : list (pystr * pystr)) :
  forallb ok_item kvs = true -> NoDup (map fst kvs) ->
  json.loads (dict_text (PDict (str_dict kvs))) = Some (PDict (str_dict kvs)).
Proof.
  intros Hok Hnd. destruct kvs as [|kv kvs]; [reflexivity|].
  rewrite dict_text_str_dict. unfold json.loads.
  change (startswith [65279%N] (123%N :: ?x)) with false. cbv iota.
  change (json.skip_ws (123%N :: ?x)) with (123%N :: x).
  rewrite Nat.add_1_r, scan_once_object, skip_indent.
  set (F := (2 * length _)%nat).
  assert (length (kv :: kvs) < F)%nat as HF.
  { unfold F. pose proof (join_length (kv :: kvs)) as HL.
    cbn [length] in *. rewrite length_app. lia. }
  pose proof (members_lines kvs kv F [] [] Hok HF) as Hm.
  destruct (join_head kv kvs) as [tl Etl].
  rewrite Etl in *. cbn [app] in *.
  change (N.eqb 34 125) with false. cbv iota.
  rewrite Hm. cbn [json.skip_ws].
  now rewrite fold_set_distinct.
Qed.

End JsonRoundTrip.

(* ================================================================== *)
(** * json: the decoder has fuel enough *)

Section Fuel.

Lemma skip_ws_length (s : pystr) : (length (json.skip_ws s) <= length s)%nat.
Proof.
  induction s as [|c s IH]; cbn [json.skip_ws]; [apply Nat.le_refl|].
  destruct (json.is_ws c); cbn [length]; lia.
Qed.

Lemma skip_ws_cons (s r : pystr) (c : N) :
  json.skip_ws s = c :: r -> (length r < length s)%nat.
Proof.
  intros H. pose proof (skip_ws_length s) as HL. rewrite H in HL. cbn in HL. lia.
Qed.

Lemma consumes_cons_char (c : N) (x : json.scan pystr) (s s' : pystr) :
  consumes x s' -> (length s' <= length s)%nat -> consumes (json.cons_char c x) s.
Proof.
  intros [Hn Hl] Hs. destruct x as [a r| |]; cbn; split; try discriminate.
  - intros a' r' E. injection E as <- <-. specialize (Hl a r eq_refl). lia.
  - contradiction.
Qed.

Lemma consumes_malformed {A} (s : pystr) : consumes (@json.Malformed A) s.
Proof. split; discriminate. Qed.

Lemma scanstring_consumes (s : pystr) : consumes (json.scanstring s) s.
Proof.
  remember (length s) as n eqn:En.
  revert s En. induction n as [n IH] using lt_wf_ind. intros s En.
  assert (forall s', (length s' < length s)%nat -> consumes (json.scanstring s') s') as IH'.
  { intros s' Hs'. apply (IH (length s')); [lia|reflexivity]. }
  clear IH En n.
  destruct s as [|c s1]; [apply consumes_malformed|].
  cbn [json.scanstring].
  destruct (N.eqb c 34).
  { split; [discriminate|]. intros a r E. injection E as <- <-. cbn. lia. }
  destruct (N.eqb c 92).
  2:{ destruct (c <? 32)%N; [apply consumes_malformed|].
      apply consumes_cons_char with (s' := s1); [apply IH'|]; cbn; lia. }
  destruct s1 as [|e s2]; [apply consumes_malformed|].
  destruct (N.eqb e 117).
  2:{ destruct (json.unescape e); [|apply consumes_malformed].
      apply consumes_cons_char with (s' := s2); [apply IH'|]; cbn; lia. }
  destruct s2 as [|h1 [|h2 [|h3 [|h4 s3]]]]; try apply consumes_malformed.
  destruct (json.hex4 h1 h2 h3 h4) as [uni|]; [|apply consumes_malformed].
  assert (consumes (json.cons_char uni (json.scanstring s3))
            (c :: e :: h1 :: h2 :: h3 :: h4 :: s3)) as Hplain.
  { apply consumes_cons_char with (s' := s3); [apply IH'|]; cbn; lia. }
  destruct s3 as [|b [|v [|l1 [|l2 [|l3 [|l4 s4]]]]]]; try exact Hplain.
  destruct (json.hex4 l1 l2 l3 l4) as [uni2|]; [|exact Hplain].
  destruct (json.is_high_surrogate uni && N.eqb b 92 && N.eqb v 117
            && json.is_low_surrogate uni2); [|exact Hplain].
  apply consumes_cons_char with (s' := s4); [apply IH'|]; cbn; lia.
Qed.

Lemma span_digits_length (s : pystr) :
  (length (snd (json.span_digits s)) <= length s)%nat.
Proof.
  induction s as [|c s IH]; cbn [json.span_digits]; [apply Nat.le_refl|].
  destruct (json.is_digit c); [|apply Nat.le_refl].
  destruct (json.span_digits s) as [ds r]. cbn in *. lia.
Qed.

Lemma strip_prefix_length (w s r : pystr) :
  json.strip_prefix w s = Some r -> (length r + length w = length s)%nat.
Proof.
  revert s; induction w as [|a w IH]; intros s H.
  - cbn in H. injection H as <-. cbn. lia.
  - destruct s as [|b s]; [discriminate|]. cbn in H.
    destruct (N.eqb a b); [|discriminate]. apply IH in H. cbn. lia.
Qed.

Lemma scan_int_part_length (s : pystr) (ip : list N) (r : pystr) :
  json.scan_int_part s = Some (ip, r) -> (length r < length s)%nat.
Proof.
  destruct s as [|c s]; [discriminate|]. cbn [json.scan_int_part].
  destruct (N.eqb c 48).
  - intros H. injection H as <- <-. cbn. lia.
  - destruct (json.is_digit c); [|discriminate].
    pose proof (span_digits_length s) as HL.
    destruct (json.span_digits s) as [ds r']. intros H. injection H as <- <-.
    cbn in *. lia.
Qed.

Lemma scan_frac_length (s : pystr) (ds : list N) (r : pystr) :
  json.scan_frac s = Some (ds, r) -> (length r <= length s)%nat.
Proof.
  destruct s as [|c s]; [discriminate|]. cbn [json.scan_frac].
  destruct (N.eqb c 46); [|discriminate].
  pose proof (span_digits_length s) as HL.
  destruct (json.span_digits s) as [[|d ds'] r']; [discriminate|].
  intros H. injection H as <- <-. cbn in *. lia.
Qed.

Lemma scan_exp_length (s : pystr) (e : Z) (r : pystr) :
  json.scan_exp s = Some (e, r) -> (length r <= length s)%nat.
Proof.
  destruct s as [|c s]; [discriminate|]. cbn [json.scan_exp].
  destruct (N.eqb c 101 || N.eqb c 69); [|discriminate].
  assert (forall s2, (length s2 <= length s)%nat ->
          (length (snd (json.span_digits s2)) <= length (c :: s))%nat) as Haux.
  { intros s2 Hs2. pose proof (span_digits_length s2). cbn [length]. lia. }
  destruct s as [|g s'].
  - specialize (Haux [] (Nat.le_refl _)).
    destruct (json.span_digits []) as [[|d ds] r']; [discriminate|].
    intros H. injection H as _ <-. exact Haux.
  - destruct (N.eqb g 45); [|destruct (N.eqb g 43)].
    + specialize (Haux s' ltac:(cbn; lia)).
      destruct (json.span_digits s') as [[|d ds] r']; [discriminate|].
      intros H. injection H as _ <-. exact Haux.
    + specialize (Haux s' ltac:(cbn; lia)).
      destruct (json.span_digits s') as [[|d ds] r']; [discriminate|].
      intros H. injection H as _ <-. exact Haux.
    + specialize (Haux (g :: s') (Nat.le_refl _)).
      destruct (json.span_digits (g :: s')) as [[|d ds] r']; [discriminate|].
      intros H. injection H as _ <-. exact Haux.
Qed.

Lemma scan_number_length (s : pystr) (v : value) (r : pystr) :
  json.scan_number s = Some (v, r) -> (length r < length s)%nat.
Proof.
  unfold json.scan_number.
  set (p := match s with
            | c :: s' => if N.eqb c 45 then (true, s') else (false, s)
            | [] => (false, s)
            end).
  assert (length (snd p) <= length s)%nat as Hp.
  { unfold p. destruct s as [|c s']; [apply Nat.le_refl|].
    destruct (N.eqb c 45); cbn; lia. }
  destruct p as [neg s1]. cbn [snd] in Hp.
  destruct (json.scan_int_part s1) as [[ip r1]|] eqn:Ei; [|discriminate].
  apply scan_int_part_length in Ei.
  assert (forall r2, (length r2 <= length r1)%nat ->
          forall fp,
          (let '(ep, r3) :=
             match json.scan_exp r2 with
             | Some (e, r0) => (Some e, r0)
             | None => (None, r2)
             end in
           match fp, ep with
           | None, None =>
               Some (PInt (if neg then - Z.of_N (json.of_digits ip)
                           else Z.of_N (json.of_digits ip)), r3)
           | _, _ =>
               let fd := match fp with Some ds => ds | None => [] end in
               let e := match ep with Some e => e | None => 0%Z end in
               Some (PFloat (FNum neg (json.of_digits (ip ++ fd))
                               (e - Z.of_nat (length fd))), r3)
           end) = Some (v, r) -> (length r < length s)%nat) as Haux.
  { intros r2 Hr2 fp.
    destruct (json.scan_exp r2) as [[e r0]|] eqn:Ee.
    - apply scan_exp_length in Ee.
      destruct fp; intros H; injection H as _ <-; lia.
    - destruct fp; intros H; injection H as _ <-; lia. }
  destruct (json.scan_frac r1) as [[ds r0]|] eqn:Ef.
  - apply scan_frac_length in Ef. apply (Haux r0 Ef (Some ds)).
  - apply (Haux r1 (Nat.le_refl _) None).
Qed.

Lemma scan_atom_consumes (s : pystr) : consumes (json.scan_atom s) s.
Proof.
  unfold json.scan_atom.
  repeat match goal with
  | |- consumes (match json.strip_prefix ?w s with _ => _ end) s =>
      let E := fresh "E" in
      destruct (json.strip_prefix w s) eqn:E;
      [ apply strip_prefix_length in E; cbn [length u map list_ascii_of_string] in E;
        split; [discriminate|intros a r0 H; injection H as _ <-; cbn in E; lia] | ]
  end.
  - destruct (json.scan_number s) as [[v r]|] eqn:En.
    + apply scan_number_length in En.
      split; [discriminate|intros a r0 H; injection H as _ <-; lia].
    + repeat match goal with
      | |- consumes (match json.strip_prefix ?w s with _ => _ end) s =>
          let E := fresh "E" in
          destruct (json.strip_prefix w s) eqn:E;
          [ apply strip_prefix_length in E;
            split; [discriminate|intros a r0 H; injection H as _ <-; cbn in E; lia] | ]
      end.
      apply consumes_malformed.
Qed.

Lemma consumes_weaken {A} (x : json.scan A) (s s' : pystr) :
  consumes x s' -> (length s' <= length s)%nat -> consumes x s.
Proof.
  intros [Hn Hl] Hs. split; [exact Hn|].
  intros a r E. specialize (Hl a r E). lia.
Qed.

Lemma consumes_map {A B} (f : A -> B) (x : json.scan A) (s s' : pystr) :
  consumes x s' -> (length s' <= length s)%nat ->
  consumes (match x with
            | json.Parsed a r => json.Parsed (f a) r
            | json.Malformed => json.Malformed
            | json.Starved => json.Starved
            end) s.
Proof.
  intros [Hn Hl] Hs. destruct x as [a r| |]; split; try discriminate.
  - intros b r' E. injection E as _ <-. specialize (Hl a r eq_refl). lia.
  - contradiction.
Qed.

Lemma scan_once_S (fuel : nat) (s : pystr) :
  json.scan_once (S fuel) s
  = match s with
    | [] => json.Malformed
    | c :: s' =>
        if N.eqb c 34 then
          match json.scanstring s' with
          | json.Parsed str r => json.Parsed (PStr str) r
          | json.Malformed => json.Malformed
          | json.Starved => json.Starved
          end
        else if N.eqb c 123 then
          match json.skip_ws s' with
          | c1 :: r1 =>
              if N.eqb c1 125 then json.Parsed (PDict []) r1
              else match json.members fuel (c1 :: r1) [] with
                   | json.Parsed d r => json.Parsed (PDict d) r
                   | json.Malformed => json.Malformed
                   | json.Starved => json.Starved
                   end
          | [] => json.Malformed
          end
        else if N.eqb c 91 then
          match json.skip_ws s' with
          | c1 :: r1 =>
              if N.eqb c1 93 then json.Parsed (PList []) r1
              else match json.elements fuel (c1 :: r1) [] with
                   | json.Parsed l r => json.Parsed (PList l) r
                   | json.Malformed => json.Malformed
                   | json.Starved => json.Starved
                   end
          | [] => json.Malformed
          end
        else json.scan_atom s
    end.
Proof. reflexivity. Qed.

Lemma elements_S (fuel : nat) (s : pystr) (acc : list value) :
  json.elements (S fuel) s acc
  = match json.scan_once fuel s with
    | json.Parsed v r =>
        match json.skip_ws r with
        | c :: r' =>
            if N.eqb c 93 then json.Parsed (acc ++ [v]) r'
            else if N.eqb c 44 then json.elements fuel (json.skip_ws r') (acc ++ [v])
            else json.Malformed
        | [] => json.Malformed
        end
    | json.Malformed => json.Malformed
    | json.Starved => json.Starved
    end.
Proof. reflexivity. Qed.

(** With fuel above twice the length of the text, the scanners of values
    do not starve, and they consume what they accept. *)
Lemma fueled (fuel : nat) :
  (forall s, (2 * length s < fuel)%nat -> consumes (json.scan_once fuel s) s)
  /\ (forall s acc, (2 * length s + 1 < fuel)%nat ->
       consumes (json.elements fuel s acc) s)
  /\ (forall s acc, (2 * length s + 1 < fuel)%nat ->
       consumes (json.members fuel s acc) s).
Proof.
  induction fuel as [|fuel (IHv & IHe & IHm)].
  { repeat split; intros; lia. }
  split; [|split].
  - intros s Hs. rewrite scan_once_S.
    destruct s as [|c s']; [apply consumes_malformed|].
    cbn [length] in Hs.
    destruct (N.eqb c 34).
    { apply consumes_map with (s' := s'); [apply scanstring_consumes|cbn; lia]. }
    destruct (N.eqb c 123).
    { destruct (json.skip_ws s') as [|c1 r1] eqn:Ews; [apply consumes_malformed|].
      pose proof (skip_ws_length s') as HL. rewrite Ews in HL.
      destruct (N.eqb c1 125).
      - split; [discriminate|]. intros a r E. injection E as _ <-.
        cbn [length] in *. lia.
      - apply consumes_map with (s' := c1 :: r1); [|cbn [length] in *; lia].
        apply IHm. cbn [length] in *. lia. }
    destruct (N.eqb c 91).
    { destruct (json.skip_ws s') as [|c1 r1] eqn:Ews; [apply consumes_malformed|].
      pose proof (skip_ws_length s') as HL. rewrite Ews in HL.
      destruct (N.eqb c1 93).
      - split; [discriminate|]. intros a r E. injection E as _ <-.
        cbn [length] in *. lia.
      - apply consumes_map with (s' := c1 :: r1); [|cbn [length] in *; lia].
        apply IHe. cbn [length] in *. lia. }
    apply scan_atom_consumes.
  - intros s acc Hs. rewrite elements_S.
    destruct (IHv s ltac:(lia)) as [Hn Hl].
    destruct (json.scan_once fuel s) as [v r| |];
      [|apply consumes_malformed|contradiction].
    specialize (Hl v r eq_refl).
    destruct (json.skip_ws r) as [|c r'] eqn:Ews; [apply consumes_malformed|].
    pose proof (skip_ws_length r) as HL. rewrite Ews in HL. cbn [length] in HL.
    destruct (N.eqb c 93).
    { split; [discriminate|]. intros a r0 E. injection E as _ <-. lia. }
    destruct (N.eqb c 44); [|apply consumes_malformed].
    pose proof (skip_ws_length r') as HL'.
    apply consumes_weaken with (s' := json.skip_ws r'); [|lia].
    apply IHe. lia.
  - intros s acc Hs. rewrite members_S.
    destruct s as [|q s0]; [apply consumes_malformed|].
    cbn [length] in Hs.
    destruct (N.eqb q 34); [|apply consumes_malformed].
    destruct (scanstring_consumes s0) as [Hn0 Hl0].
    destruct (json.scanstring s0) as [key r0| |];
      [|apply consumes_malformed|contradiction].
    specialize (Hl0 key r0 eq_refl).
    destruct (json.skip_ws r0) as [|c0 r1] eqn:Ews0; [apply consumes_malformed|].
    pose proof (skip_ws_length r0) as HL0. rewrite Ews0 in HL0. cbn [length] in HL0.
    destruct (N.eqb c0 58); [|apply consumes_malformed].
    pose proof (skip_ws_length r1) as HL1.
    destruct (IHv (json.skip_ws r1) ltac:(lia)) as [Hn Hl].
    destruct (json.scan_once fuel (json.skip_ws r1)) as [v r| |];
      [|apply consumes_malformed|contradiction].
    specialize (Hl v r eq_refl).
    destruct (json.skip_ws r) as [|c r'] eqn:Ews; [apply consumes_malformed|].
    pose proof (skip_ws_length r) as HL. rewrite Ews in HL. cbn [length] in HL.
    destruct (N.eqb c 125).
    { split; [discriminate|]. intros a rr E. injection E as _ <-. cbn [length]. lia. }
    destruct (N.eqb c 44); [|apply consumes_malformed].
    pose proof (skip_ws_length r') as HL'.
    apply consumes_weaken with (s' := json.skip_ws r'); [|cbn [length]; lia].
    apply IHm. lia.
Qed.

(** [json.loads] never runs out of fuel: when it gives [None] the text is
    not a JSON document. *)
Lemma loads_never_starved (s : pystr) :
  json.scan_once (2 * length s + 1) (json.skip_ws s) <> json.Starved.
Proof.
  destruct (fueled (2 * length s + 1)) as [Hv _].
  apply Hv. pose proof (skip_ws_length s). lia.
Qed.

End Fuel.

(* ================================================================== *)
(** * The properties of the specification *)

Section Properties.

(** C1 (evaluated where it fails). The dictionary of the prepared study
    parses to a non-empty mapping and the output root [source] exists,
    yet [main] does not run the second pass: it stops with a [NameError]
    and exit status 1, having printed nothing. *)
Theorem main_ready_state_crashes :
  let w := World Demo.prepared [] in
  fst (bids_load_prot_dict (u "dicom/Protocol_Translator.json") w)
  = Return (PDict [ (u "T1w", PStr (u "anat/T1w"));
                    (u "rest", PStr (u "EXCLUDE")) ])
  /\ os.isdir (tree w) (u "source") = true
  /\ main None w = (Raise (NameError (u "bids_root_dir")), w)
  /\ exit_status (fst (main None w)) = 1%Z.
Proof. vm_compute. repeat split. Qed.

(** Without a dictionary file, or with one that loads to a false value,
    [main] announces the first pass, prints the trace of the scan and
    exits with status 0; the file tree is as it was. *)
Lemma main_first_pass (indir : option pystr) (w : world) (prot_dict : value) :
  fst (bids_load_prot_dict (prot_dict_json_of indir) w) = Return prot_dict ->
  truthy prot_dict = false ->
  main indir w
  = (Raise (SystemExit 0),
     World (tree w)
       (stdout w ++ pass1_banner
        ++ progress_trace (os.walk (tree w) (dcm_root_dir_of indir)))).
Proof.
  intros Hload Hfalse. now rewrite main_spec, Hload, Hfalse.
Qed.

(** C2 (evaluated where it fails). On the study without a dictionary
    file, [main] runs the first pass and exits with status 0, and the
    file tree is unchanged: no [Protocol_Translator.json] has appeared
    under the input root. *)
Theorem main_first_pass_writes_no_dictionary :
  let w := World Demo.study [] in
  os.isfile (tree w) (u "dicom/Protocol_Translator.json") = false
  /\ fst (main None w) = Raise (SystemExit 0)
  /\ exit_status (fst (main None w)) = 0%Z
  /\ tree (snd (main None w)) = tree w
  /\ os.isfile (tree (snd (main None w))) (u "dicom/Protocol_Translator.json") = false
  /\ stdout (snd (main None w))
     = [ []; rule; banner_pass1; rule;
         u " dicom"; u "--- A"; u "------ ses1"; u "--------- notes.txt";
         u "--------- 0001.dcm"; u "--------- 0002.dcm";
         u "--- B"; u "------ ses1"; u "--------- 0001.dcm" ].
Proof. vm_compute. repeat split. Qed.

(** C3 (evaluated where it fails). On the study, whose three images are
    of two series, the scanner of the specification finds the keys [T1w]
    and [rest], in that order, and [scan_dicom_series] returns the empty
    list. *)
Theorem scan_dicom_series_misses_series :
  let w := World Demo.study [] in
  spec_tree_scanner str_eqb series_description (tree w) (u "dicom")
  = [u "T1w"; u "rest"]
  /\ fst (scan_dicom_series (u "dicom") w) = Return [].
Proof. vm_compute. repeat split. Qed.

(** C4. [bids_create_prot_dict] does not overwrite: where the path is
    already a file it reports that creation is skipped and leaves the
    file tree, so the content of that file, as it is; and a second call
    on the same path, whatever dictionary it is given, leaves the tree as
    the first call left it. *)
Theorem bootstrap_keeps_existing_file (p : pystr) (d : value) (w : world) :
  (os.isfile (tree w) p = true ->
   bids_create_prot_dict p d w
   = (Return tt, World (tree w) (stdout w ++ skipped_lines p)))
  /\ (forall d',
      tree (snd (bids_create_prot_dict p d' (snd (bids_create_prot_dict p d w))))
      = tree (snd (bids_create_prot_dict p d w))).
Proof.
  split.
  - intros Hf. now rewrite bids_create_prot_dict_run, Hf.
  - intros d'. apply bids_create_prot_dict_twice.
Qed.

(** An edited dictionary survives a later bootstrap with another one. *)
Lemma bootstrap_keeps_existing_file_witness :
  let w := World Demo.prepared [] in
  let p := u "dicom/Protocol_Translator.json" in
  os.isfile (tree w) p = true
  /\ tree (snd (bids_create_prot_dict p (PDict [(u "T1w", PStr (u "EXCLUDE"))]) w))
     = Demo.prepared.
Proof.
  intros w p.
  assert (os.isfile (tree w) p = true) as Hf by (vm_compute; reflexivity).
  split; [exact Hf|].
  now rewrite (proj1 (bootstrap_keeps_existing_file p
                       (PDict [(u "T1w", PStr (u "EXCLUDE"))]) w) Hf).
Defined.

(** C5. [bids_load_prot_dict] returns what the file parses to when the
    file exists and parses; without a regular file at the path it returns
    an empty mapping and raises nothing; and when the file exists but is
    not valid JSON (or does not even decode as text) it raises, which is
    fatal: [main] catches nothing, so the run ends there with status 1. *)
Theorem bids_load_prot_dict_cases (p : pystr) (w : world) :
  (forall t d v,
      os.stat (tree w) p = inr (File (Some t) d) -> json.loads t = Some v ->
      bids_load_prot_dict p w = (Return v, w))
  /\ (os.isfile (tree w) p = false ->
      bids_load_prot_dict p w = (Return (PDict []), w))
  /\ (forall t d,
      os.stat (tree w) p = inr (File t d) ->
      match t with Some s => json.loads s | None => None end = None ->
      (exists e, bids_load_prot_dict p w = (Raise e, w)
                 /\ (e = JSONDecodeError \/ e = UnicodeDecodeError))
      /\ forall indir, prot_dict_json_of indir = p ->
           exists e, main indir w = (Raise e, w)
                     /\ exit_status (fst (main indir w)) = 1%Z).
Proof.
  split; [|split].
  - intros t d v Hst Hv. now rewrite bids_load_prot_dict_spec, Hst, Hv.
  - intros Hf. rewrite bids_load_prot_dict_spec.
    unfold os.isfile in Hf.
    destruct (os.stat (tree w) p) as [e|[t d|es]]; [reflexivity|discriminate|reflexivity].
  - intros t d Hst Hbad.
    assert (exists e, bids_load_prot_dict p w = (Raise e, w)
                      /\ (e = JSONDecodeError \/ e = UnicodeDecodeError)) as Hraise.
    { rewrite bids_load_prot_dict_spec, Hst. destruct t as [s|].
      - rewrite Hbad. exists JSONDecodeError. split; [reflexivity|now left].
      - exists UnicodeDecodeError. split; [reflexivity|now right]. }
    split; [exact Hraise|].
    intros indir <-. destruct Hraise as (e & He & Hkind).
    exists e. rewrite main_spec, He. cbn [fst].
    split; [reflexivity|]. destruct Hkind as [-> | ->]; reflexivity.
Qed.

(** The prepared study has a dictionary that parses, the plain study has
    none, and the broken one has a dictionary that stops short. *)
Lemma bids_load_prot_dict_cases_witness :
  bids_load_prot_dict (u "dicom/Protocol_Translator.json") (World Demo.prepared [])
  = (Return (PDict [ (u "T1w", PStr (u "anat/T1w")); (u "rest", PStr (u "EXCLUDE")) ]),
     World Demo.prepared [])
  /\ bids_load_prot_dict (u "dicom/Protocol_Translator.json") (World Demo.study [])
     = (Return (PDict []), World Demo.study [])
  /\ bids_load_prot_dict (u "dicom/Protocol_Translator.json") (World Demo.broken [])
     = (Raise JSONDecodeError, World Demo.broken [])
  /\ exit_status (fst (main None (World Demo.broken []))) = 1%Z.
Proof.
  split; [|split; [|split]].
  - apply (proj1 (bids_load_prot_dict_cases _ (World Demo.prepared [])))
      with (t := Demo.edited) (d := None); vm_compute; reflexivity.
  - apply (proj1 (proj2 (bids_load_prot_dict_cases _ (World Demo.study [])))).
    vm_compute. reflexivity.
  - destruct (proj2 (proj2 (bids_load_prot_dict_cases
                (u "dicom/Protocol_Translator.json") (World Demo.broken [])))
              (Some (Demo.jtext "{ 'T1w': ")) None) as [(e & He & Hk) _];
      [vm_compute; reflexivity|vm_compute; reflexivity|].
    rewrite He. vm_compute in He. now injection He as <-.
  - destruct (proj2 (proj2 (bids_load_prot_dict_cases
                (u "dicom/Protocol_Translator.json") (World Demo.broken [])))
              (Some (Demo.jtext "{ 'T1w': ")) None) as [_ Hmain];
      [vm_compute; reflexivity|vm_compute; reflexivity|].
    destruct (Hmain None) as (e & _ & Hst); [vm_compute; reflexivity|exact Hst].
Defined.

(** C6, as stated, fails: bootstrap writes the dictionary it is given,
    here one that maps [T1w] to a label, and the label is what loading
    the file returns. *)
Lemma bootstrap_excludes_all_fails : ~ bootstrap_excludes_all.
Proof.
  intros H.
  destruct (H [(u "T1w", PStr (u "anat/T1w"))]
              (u "dicom/Protocol_Translator.json") (World Demo.study []))
    as (d' & Hload & _ & Hvals); [vm_compute; reflexivity..|].
  vm_compute in Hload. injection Hload as <-.
  specialize (Hvals (PStr (u "anat/T1w")) (or_introl eq_refl)).
  vm_compute in Hvals. discriminate.
Qed.

Lemma exclude_template_str_dict (K : list pystr) :
  exclude_template K = str_dict (map (fun k => (k, u "EXCLUDE")) K).
Proof. unfold exclude_template, str_dict. now rewrite map_map. Qed.

(** C6, amended. For every list [K] of distinct series keys, each a
    string of Unicode scalar values, when bootstrap is given the
    dictionary that maps every key of [K] to ["EXCLUDE"], at a path that
    is not yet a file and where it can create one, loading the file it
    wrote returns a mapping whose keys are [K], in order, and whose every
    value is ["EXCLUDE"]. *)
Theorem load_after_bootstrap (K : list pystr) (p : pystr) (w : world) :
  NoDup K ->
  forallb (forallb is_scalar) K = true ->
  os.isfile (tree w) p = false ->
  fst (bids_create_prot_dict p (PDict (exclude_template K)) w) = Return tt ->
  exists d',
    bids_load_prot_dict p (after_bootstrap p (exclude_template K) w)
    = (Return (PDict d'), after_bootstrap p (exclude_template K) w)
    /\ dict.keys d' = K
    /\ forall v, In v (dict.values d') -> v = PStr (u "EXCLUDE").
Proof.
  intros Hnd Hok Hf Hret. exists (exclude_template K).
  split; [|split].
  - unfold after_bootstrap in *.
    rewrite bids_create_prot_dict_run, Hf in *.
    destruct (os.create (tree w) p) as [e|[h t']] eqn:Ec; [discriminate|].
    cbn [snd]. rewrite bids_load_prot_dict_spec. cbn [tree].
    rewrite (created_file_stat p _ w h t' Ec).
    rewrite exclude_template_str_dict, loads_dict_text; [reflexivity| |].
    + rewrite forallb_forall in Hok. apply forallb_forall.
      intros x Hx. apply in_map_iff in Hx as (k & <- & Hk).
      unfold ok_item. cbn [fst snd]. now rewrite (Hok k Hk).
    + rewrite map_map. cbn [fst]. now rewrite map_id.
  - unfold dict.keys, exclude_template. rewrite map_map. cbn [fst]. apply map_id.
  - unfold dict.values, exclude_template. rewrite map_map. cbn [snd].
    intros v Hv. apply in_map_iff in Hv as (k & <- & _). reflexivity.
Qed.

(** The two series of the study, bootstrapped under its input root. *)
Lemma load_after_bootstrap_witness :
  let K := [u "T1w"; u "rest"] in
  let p := u "dicom/Protocol_Translator.json" in
  let w := World Demo.study [] in
  exists d',
    bids_load_prot_dict p (after_bootstrap p (exclude_template K) w)
    = (Return (PDict d'), after_bootstrap p (exclude_template K) w)
    /\ dict.keys d' = K
    /\ forall v, In v (dict.values d') -> v = PStr (u "EXCLUDE").
Proof.
  intros K p w. apply (load_after_bootstrap K p w).
  - repeat constructor; cbn; intuition discriminate.
  - vm_compute. reflexivity.
  - vm_compute. reflexivity.
  - vm_compute. reflexivity.
Defined.

(** C7, as stated, fails: the one file of the session is read without an
    error, as a data set with no element; such a data set is false in
    [if ds], and the reader exits with status 1. *)
Lemma header_reader_claim_fails : ~ header_reader_claim.
Proof.
  intros H.
  destruct (H (u "ses1") (World Demo.empty_header_session [])) as [_ Hsome].
  destruct Hsome as (d & _ & Hret).
  - exists []. vm_compute. now left.
  - vm_compute in Hret. discriminate.
Qed.

(** C7, amended. For every session directory: when no file under it is
    read as a data set with at least one element (the read fails, or the
    data set is empty), [bids_dcm_info] prints its diagnostic and exits
    with status 1; when at least one file is read and none is read as an
    empty data set, it returns the metadata of a header it read, where
    [Sex] is ["Unknown"] and [Age] is [0] whenever the header lacks the
    field. *)
Theorem bids_dcm_info_amended (dcm_dir : pystr) (w : world) :
  let hs := headers_read (tree w) dcm_dir in
  ((forall d, In (Some d) hs -> d = []) ->
   bids_dcm_info dcm_dir w
   = (Raise (SystemExit 1), World (tree w) (stdout w ++ no_header_lines dcm_dir))
   /\ exit_status (fst (bids_dcm_info dcm_dir w)) = 1%Z)
  /\ (~ In (Some []) hs -> (exists d, In (Some d) hs) ->
      exists d,
        In (Some d) hs
        /\ bids_dcm_info dcm_dir w
           = (Return
                (PDict [ (u "Sex", match dict.get d (u "PatientSex") with
                                   | Some v => v
                                   | None => PStr (u "Unknown")
                                   end);
                         (u "Age", match dict.get d (u "PatientAge") with
                                   | Some v => v
                                   | None => PInt 0
                                   end) ]), w)).
Proof.
  intros hs. unfold hs. rewrite headers_read_concat, bids_dcm_info_run.
  rewrite last_valid_pick_all.
  set (hss := map (headers_of (tree w)) (os.walk (tree w) dcm_dir)).
  split.
  - intros Hall.
    pose proof (pick_all_falsy hss None Hall eq_refl) as Hf.
    destruct (pick_all hss None) as [[|e d]|]; [now split|discriminate|now split].
  - intros Hne Hsome.
    pose proof (pick_all_truthy hss None Hne (or_intror Hsome)) as Ht.
    destruct (pick_all_from hss None) as [E|E].
    + rewrite E in Ht. discriminate.
    + destruct (pick_all hss None) as [[|e d]|]; try discriminate.
      exists (e :: d). split; [exact E|reflexivity].
Qed.

(** A session with notes and an anonymised image gives the defaults; a
    session with notes only ends the run. *)
Lemma bids_dcm_info_amended_witness :
  bids_dcm_info (u "ses1") (World Demo.anon_session [])
  = (Return (PDict [ (u "Sex", PStr (u "Unknown")); (u "Age", PInt 0) ]),
     World Demo.anon_session [])
  /\ fst (bids_dcm_info (u "ses1") (World Demo.unreadable_session []))
     = Raise (SystemExit 1).
Proof.
  split.
  - destruct (proj2 (bids_dcm_info_amended (u "ses1") (World Demo.anon_session [])))
      as (d & Hd & Hrun).
    + vm_compute. intros [H|[H|[]]]; discriminate.
    + exists Demo.anon. vm_compute. right. now left.
    + vm_compute in Hd. destruct Hd as [Hd|[Hd|[]]]; [discriminate|].
      injection Hd as <-. exact Hrun.
  - destruct (proj1 (bids_dcm_info_amended (u "ses1")
                       (World Demo.unreadable_session []))) as [Hrun _].
    + vm_compute. intros d [H|[]]. discriminate.
    + now rewrite Hrun.
Defined.

(** C8 (evaluated where it fails). In the nested session the first file
    read, [0001.dcm] at the top, has a valid header, of a male subject
    with no age; the walk then enters [series2], reads its first file,
    and the metadata returned are those of that later file. *)
Theorem later_folder_replaces_first_header :
  let w := World Demo.nested_session [] in
  headers_read (tree w) (u "ses1") = [Some Demo.t1w; Some Demo.rest]
  /\ info_of Demo.t1w
     = PDict [ (u "Sex", PStr (u "M")); (u "Age", PInt 0) ]
  /\ bids_dcm_info (u "ses1") w
     = (Return (PDict [ (u "Sex", PStr (u "F")); (u "Age", PStr (u "034Y")) ]), w).
Proof. vm_compute. repeat split. Qed.

(** In a session without subfolders the first data set with an element
    is the one used: files after it are not read. *)
Lemma bids_dcm_info_flat (dcm_dir : pystr) (w : world) (files : list pystr)
    (pre post : list (option Dataset)) (e : pystr * value) (d : Dataset) :
  os.walk (tree w) dcm_dir = [(dcm_dir, [], files)] ->
  headers_read (tree w) dcm_dir = pre ++ Some (e :: d) :: post ->
  (forall h, In h pre -> ds_truthy h = false) ->
  bids_dcm_info dcm_dir w = (Return (info_of (e :: d)), w).
Proof.
  intros Hwalk Hhs Hpre.
  rewrite bids_dcm_info_run, last_valid_pick_all.
  rewrite headers_read_concat in Hhs. rewrite Hwalk in *.
  cbn [map concat] in Hhs. rewrite app_nil_r in Hhs.
  cbn [map pick_all fold_left]. rewrite Hhs.
  now rewrite (pick_first_valid pre post e d None Hpre eq_refl).
Qed.

(** C9. For every input directory, whatever it holds, [scan_dicom_series]
    returns the empty list: it prints the progress trace of the
    directories and files of the walk, changes no file, and no series key
    is ever added to the list it returns. *)
Theorem scan_dicom_series_returns_empty (dcm_dir : pystr) (w : world) :
  fst (scan_dicom_series dcm_dir w) = Return []
  /\ tree (snd (scan_dicom_series dcm_dir w)) = tree w
  /\ stdout (snd (scan_dicom_series dcm_dir w))
     = stdout w ++ progress_trace (os.walk (tree w) dcm_dir).
Proof.
  rewrite scan_dicom_series_run. cbn [fst snd tree stdout].
  repeat split.
Qed.

(** C10. For every run in which the dictionary file loads to a true value
    (a non-empty mapping is one), the pass-selection test of [main] reads
    the name [bids_root_dir], which nothing defines: [main] ends with an
    uncaught [NameError], exit status 1, before anything is printed; and
    in no run at all does the test come out true, so the second pass is
    never entered. *)
Theorem main_nonempty_dictionary_NameError (indir : option pystr) (w : world)
    (prot_dict : value) :
  fst (bids_load_prot_dict (prot_dict_json_of indir) w) = Return prot_dict ->
  truthy prot_dict = true ->
  main indir w = (Raise (NameError (u "bids_root_dir")), w)
  /\ exit_status (fst (main indir w)) = 1%Z
  /\ forall v w', fst (pass2_test v w') <> Return true.
Proof.
  intros Hload Htrue. rewrite main_spec, Hload, Htrue.
  repeat split.
  intros v w'. rewrite pass2_test_outcome.
  destruct (truthy v); discriminate.
Qed.

(** The prepared study: its dictionary loads to a mapping of two keys. *)
Lemma main_nonempty_dictionary_NameError_witness :
  let w := World Demo.prepared [] in
  let d := PDict [ (u "T1w", PStr (u "anat/T1w")); (u "rest", PStr (u "EXCLUDE")) ] in
  fst (bids_load_prot_dict (prot_dict_json_of None) w) = Return d
  /\ truthy d = true
  /\ main None w = (Raise (NameError (u "bids_root_dir")), w)
  /\ exit_status (fst (main None w)) = 1%Z.
Proof.
  intros w d.
  assert (fst (bids_load_prot_dict (prot_dict_json_of None) w) = Return d) as Hload
    by (vm_compute; reflexivity).
  assert (truthy d = true) as Htrue by reflexivity.
  destruct (main_nonempty_dictionary_NameError None w d Hload Htrue) as (Hm & He & _).
  repeat split; assumption.
Defined.

End Properties.

(* ================================================================== *)
(** * Further properties of the script *)

Section Further.

(** ** Lemmas on the file tree and on the header loop *)

(** What [open(p, 'w')] does when it succeeds: the parent directory [r]
    of the file resolves, the last component [c] names no directory in
    it, and the file is put there, empty. *)
Lemma create_shape (t t' : node) (p : pystr) (h : list pystr) :
  os.create t p = inr (h, t') ->
  exists r c es,
    h = r ++ [c]
    /\ t' = os.put t (r ++ [c]) (File (Some []) None)
    /\ os.get t r = Some (Dir es)
    /\ (forall es1, dict.get es c <> Some (Dir es1))
    /\ os.resolve t [] (removelast (path.split p)) = inr r
    /\ c = last (path.split p) []
    /\ os.is_dot c = false /\ os.is_dotdot c = false
    /\ str_eqb p [] = false.
Proof.
  unfold os.create.
  destruct (str_eqb p []) eqn:Ep; [discriminate|].
  destruct (os.resolve t [] (removelast (path.split p))) as [e|r] eqn:Er;
    [discriminate|].
  destruct (os.get t r) as [[a b|es]|] eqn:Eg; try discriminate.
  destruct (os.is_dot (last (path.split p) []) || os.is_dotdot (last (path.split p) []))
    eqn:Ed; [discriminate|].
  apply orb_false_iff in Ed as [Ed1 Ed2].
  intros H. exists r, (last (path.split p) []), es.
  destruct (dict.get es (last (path.split p) [])) as [[a b|es1]|] eqn:Ec;
    try discriminate; injection H as <- <-; repeat split; auto; discriminate.
Qed.

(** [os.stat] in two steps: the parent, then the last component. *)
Lemma stat_last (t : node) (p : pystr) (r : list pystr) (es : list (pystr * node)) :
  str_eqb p [] = false ->
  os.resolve t [] (removelast (path.split p)) = inr r ->
  os.get t r = Some (Dir es) ->
  os.is_dot (last (path.split p) []) = false ->
  os.is_dotdot (last (path.split p) []) = false ->
  os.stat t p
  = match dict.get es (last (path.split p) []) with
    | Some ch => inr ch
    | None => inl os.ENOENT
    end.
Proof.
  intros Ep Er Eg Ed1 Ed2. unfold os.stat. rewrite Ep.
  rewrite (app_removelast_last [] (split_nonempty p)) at 1.
  rewrite resolve_app. unfold pystr in *. rewrite Er.
  cbn [os.resolve]. rewrite Eg, Ed1, Ed2. unfold pystr in *.
  destruct (dict.get es _) as [ch|] eqn:Ec; [|reflexivity].
  rewrite get_app, Eg. cbn [os.get]. now rewrite Ec.
Qed.

(** Putting a node leaves every other regular file as it was. *)
Lemma put_other_files (r : list pystr) (t : node) (es : list (pystr * node))
    (c : pystr) (n : node) (x : list pystr) (a : option pystr) (b : option Dataset) :
  os.get t r = Some (Dir es) ->
  (forall es1, dict.get es c <> Some (Dir es1)) ->
  x <> r ++ [c] ->
  os.get t x = Some (File a b) ->
  os.get (os.put t (r ++ [c]) n) x = Some (File a b).
Proof.
  revert t x; induction r as [|k0 r IH]; intros t x Hr Hc Hx Hget.
  - cbn in Hr. injection Hr as ->. cbn [app os.put].
    destruct x as [|k x]; [discriminate|]. cbn [os.get] in *.
    destruct (str_eqb k c) eqn:E.
    + apply str_eqb_eq in E. subst k.
      destruct (dict.get es c) as [[a' b'|es1]|] eqn:Ec; try discriminate.
      * destruct x; [now destruct Hx|discriminate].
      * now destruct (Hc es1).
    + apply str_eqb_neq in E. rewrite get_update_other; [exact Hget|exact E|].
      cbn. apply str_eqb_neq in E. now rewrite E.
  - cbn [os.get] in Hr. destruct t as [a0 b0|es0]; [discriminate|].
    destruct (dict.get es0 k0) as [ch|] eqn:Ek; [|discriminate].
    cbn [app os.put].
    destruct x as [|k x]; [discriminate|]. cbn [os.get] in *.
    destruct (str_eqb k k0) eqn:E.
    + apply str_eqb_eq in E. subst k. rewrite get_update_same, Ek.
      rewrite Ek in Hget. apply (IH ch x Hr Hc); [|exact Hget].
      intros ->. now apply Hx.
    + apply str_eqb_neq in E. rewrite get_update_other; [exact Hget|exact E|].
      now destruct r.
Qed.

(** Creating the dictionary file and writing its text leaves every
    regular file there was as it was. *)
Lemma create_keeps_files (t t' : node) (p q s : pystr) (h : list pystr)
    (a : option pystr) (b : option Dataset) :
  os.create t p = inr (h, t') ->
  os.isfile t p = false ->
  os.stat t q = inr (File a b) ->
  os.stat (os.put t' h (File (Some s) None)) q = inr (File a b).
Proof.
  intros Hc Hf Hq.
  destruct (create_shape _ _ _ _ Hc)
    as (r & c & es & -> & -> & Eg & Hnd & Er & -> & Ed1 & Ed2 & Ep).
  set (c := last (path.split p) []) in *.
  assert (dict.get es c = None) as Hnone.
  { unfold os.isfile in Hf. rewrite (stat_last t p r es Ep Er Eg Ed1 Ed2) in Hf.
    fold c in Hf. destruct (dict.get es c) as [[a' b'|es1]|] eqn:Ec;
      [discriminate|now destruct (Hnd es1)|reflexivity]. }
  unfold os.stat in Hq |- *.
  destruct (str_eqb q []); [discriminate|].
  destruct (os.resolve t [] (path.split q)) as [e|x] eqn:Ex; [discriminate|].
  destruct (os.get t x) as [n|] eqn:Egx; [|discriminate].
  injection Hq as ->.
  assert (x <> r ++ [c]) as Hx.
  { intros ->. rewrite get_app, Eg in Egx. cbn in Egx.
    rewrite Hnone in Egx. discriminate. }
  pose proof (put_grows r _ _ c (Some []) None Eg Hnd) as Hg1.
  pose proof (put_same r _ _ c (File (Some []) None) Eg) as Hsame.
  pose proof (put_other_files r t es c (File (Some []) None) x a b Eg Hnd Hx Egx) as H1.
  set (t1 := os.put t (r ++ [c]) (File (Some []) None)) in *.
  assert (exists es1, os.get t1 r = Some (Dir es1)) as [es1 Eg1].
  { apply kind_dir, Hg1, kind_dir. eauto. }
  assert (forall es2, dict.get es1 c <> Some (Dir es2)) as Hnd1.
  { intros es2 E. rewrite get_app, Eg1 in Hsame. cbn in Hsame.
    rewrite E in Hsame. discriminate. }
  pose proof (put_grows r _ _ c (Some s) None Eg1 Hnd1) as Hg2.
  pose proof (put_other_files r t1 es1 c (File (Some s) None) x a b Eg1 Hnd1 Hx H1) as H2.
  rewrite (resolve_grows _ _ _ _ _ (grows_trans _ _ _ Hg1 Hg2) Ex).
  now rewrite H2.
Qed.

(** [open(p, 'w')] on a directory. *)
Lemma create_on_directory (t : node) (p : pystr) (es0 : list (pystr * node)) :
  os.stat t p = inr (Dir es0) -> os.create t p = inl os.EISDIR.
Proof.
  unfold os.stat, os.create.
  destruct (str_eqb p []); [discriminate|].
  destruct (os.resolve t [] (removelast (path.split p))) as [e|r] eqn:Er.
  - rewrite (app_removelast_last [] (split_nonempty p)) at 1.
    rewrite resolve_app. unfold pystr in *. rewrite Er. discriminate.
  - rewrite (app_removelast_last [] (split_nonempty p)) at 1.
    rewrite resolve_app. unfold pystr in *. rewrite Er.
    cbn [os.resolve].
    destruct (os.get t r) as [[a b|es]|] eqn:Eg; try discriminate.
    destruct (os.is_dot _); [reflexivity|].
    destruct (os.is_dotdot _); [reflexivity|]. cbn [orb].
    destruct (dict.get es _) as [ch|] eqn:Ec; [|discriminate].
    rewrite get_app, Eg. cbn [os.get]. rewrite Ec.
    intros H. injection H as ->. reflexivity.
Qed.

(** Files that all read as the empty data set leave [ds] empty. *)
Lemma pick_empty (hs : list (option Dataset)) (ds : option Dataset) :
  hs <> [] -> (forall h, In h hs -> h = Some []) -> pick hs ds = Some [].
Proof.
  revert ds; induction hs as [|h hs IH]; intros ds Hne Hall; [now destruct Hne|].
  rewrite (Hall h (or_introl eq_refl)). cbn [pick ds_truthy truthy].
  destruct hs as [|h' hs']; [reflexivity|].
  apply IH; [discriminate|]. intros x Hx. apply Hall. now right.
Qed.

(** ** [main] *)

(** X1. [main] writes nothing: whatever the option and the world, the
    file tree after the run is the file tree before it. *)
Theorem main_leaves_files_alone (indir : option pystr) (w : world) :
  tree (snd (main indir w)) = tree w.
Proof.
  rewrite main_spec.
  destruct (fst (bids_load_prot_dict (prot_dict_json_of indir) w)) as [v|e];
    [|reflexivity].
  destruct (truthy v); reflexivity.
Qed.

(** X2. [main] never returns: every run ends in an exception. The exit
    status is 0 exactly when the dictionary loads to a false value, and 1
    in every other run. *)
Theorem main_exit_status (indir : option pystr) (w : world) :
  (exists e, fst (main indir w) = Raise e)
  /\ (exit_status (fst (main indir w)) = 0%Z
      <-> exists v, fst (bids_load_prot_dict (prot_dict_json_of indir) w) = Return v
                    /\ truthy v = false)
  /\ (exit_status (fst (main indir w)) = 0%Z
      \/ exit_status (fst (main indir w)) = 1%Z).
Proof.
  rewrite main_spec.
  pose proof (bids_load_prot_dict_spec (prot_dict_json_of indir) w) as Hspec.
  destruct (bids_load_prot_dict (prot_dict_json_of indir) w) as [[v|e] w'] eqn:El;
    cbn [fst].
  - destruct (truthy v) eqn:Ht; cbn [fst exit_status].
    + split; [eauto|]. split; [|now right].
      split; [discriminate|]. intros (v' & Hv' & Hf). injection Hv' as <-.
      congruence.
    + split; [eauto|]. split; [|now left].
      split; [eauto|reflexivity].
  - assert (e = JSONDecodeError \/ e = UnicodeDecodeError) as He.
    { destruct (os.stat (tree w) (prot_dict_json_of indir)) as [x|[[t|] d|es]];
        try discriminate.
      - destruct (json.loads t); [discriminate|].
        injection Hspec as -> _. now left.
      - injection Hspec as -> _. now right. }
    split; [eauto|]. split.
    + split.
      * destruct He as [-> | ->]; discriminate.
      * intros (v & Hv & _). discriminate.
    + right. destruct He as [-> | ->]; reflexivity.
Qed.

(** X3. A dictionary file that parses to a false value (an empty object,
    [null], [0], an empty list or string) does not count as a dictionary:
    [main] announces the first pass, prints the trace of the scan and
    exits with status 0. *)
Theorem main_false_dictionary_first_pass (indir : option pystr) (w : world)
    (t : pystr) (d : option Dataset) (v : value) :
  os.stat (tree w) (prot_dict_json_of indir) = inr (File (Some t) d) ->
  json.loads t = Some v ->
  truthy v = false ->
  main indir w
  = (Raise (SystemExit 0),
     World (tree w)
       (stdout w ++ pass1_banner
        ++ progress_trace (os.walk (tree w) (dcm_root_dir_of indir)))).
Proof.
  intros Hst Hv Hf.
  rewrite main_spec, bids_load_prot_dict_spec, Hst, Hv. cbn [fst].
  now rewrite Hf.
Qed.

(** A dictionary file that holds the empty object. *)
Lemma main_false_dictionary_first_pass_witness :
  let t := Dir [ (u "dicom",
                  Dir [ (u "A", Dir []);
                        (u "Protocol_Translator.json", File (Some (u "{}")) None) ]) ] in
  main None (World t [])
  = (Raise (SystemExit 0),
     World t [ []; rule; banner_pass1; rule;
               u " dicom"; u "--- Protocol_Translator.json"; u "--- A" ]).
Proof.
  intros t.
  rewrite (main_false_dictionary_first_pass None (World t []) (u "{}") None (PDict []));
    reflexivity.
Defined.

(** X4. A run of [main] that ends with status 1 has printed nothing
    and, like every run, written nothing. *)
Theorem main_failure_is_silent (indir : option pystr) (w : world) :
  exit_status (fst (main indir w)) = 1%Z ->
  snd (main indir w) = w.
Proof.
  rewrite main_spec.
  destruct (fst (bids_load_prot_dict (prot_dict_json_of indir) w)) as [v|e];
    [|reflexivity].
  destruct (truthy v); [reflexivity|discriminate].
Qed.

Lemma main_failure_is_silent_witness :
  snd (main None (World Demo.broken [])) = World Demo.broken [].
Proof.
  apply (main_failure_is_silent None (World Demo.broken [])). reflexivity.
Defined.

(** X5. [main] does not check its input directory: where it is no
    directory and there is no dictionary file, the run prints the banner
    of the first pass and nothing else, and exits with status 0. *)
Theorem main_missing_input_directory (indir : option pystr) (w : world) :
  os.isdir (tree w) (dcm_root_dir_of indir) = false ->
  os.isfile (tree w) (prot_dict_json_of indir) = false ->
  main indir w
  = (Raise (SystemExit 0), World (tree w) (stdout w ++ pass1_banner)).
Proof.
  intros Hd Hf. rewrite main_spec, bids_load_prot_dict_spec. cbn [fst].
  unfold os.isfile in Hf. unfold os.isdir in Hd. unfold os.walk.
  destruct (os.stat (tree w) (prot_dict_json_of indir)) as [x|[t d|es]];
    try discriminate;
    cbn [truthy];
    destruct (os.stat (tree w) (dcm_root_dir_of indir)) as [y|[t' d'|es']];
    try discriminate; cbn; now rewrite ?app_nil_r.
Qed.

Lemma main_missing_input_directory_witness :
  main (Some (u "nowhere")) (World Demo.study [])
  = (Raise (SystemExit 0), World Demo.study [ []; rule; banner_pass1; rule ]).
Proof.
  apply (main_missing_input_directory (Some (u "nowhere")) (World Demo.study []));
    reflexivity.
Defined.

(** ** [scan_dicom_series] *)

(** X6. On a path that is not a directory, missing or a regular file,
    [scan_dicom_series] prints nothing and returns the empty list. *)
Theorem scan_dicom_series_not_a_directory (dcm_dir : pystr) (w : world) :
  os.isdir (tree w) dcm_dir = false ->
  scan_dicom_series dcm_dir w = (Return [], w).
Proof.
  intros Hd. rewrite scan_dicom_series_run.
  unfold os.walk. unfold os.isdir in Hd.
  destruct (os.stat (tree w) dcm_dir) as [e|[t d|es]]; try discriminate;
    cbn; now rewrite app_nil_r, world_eta.
Qed.

(** The path of an image, and a path that leads nowhere. *)
Lemma scan_dicom_series_not_a_directory_witness :
  scan_dicom_series (u "dicom/A/ses1/0001.dcm") (World Demo.study [])
  = (Return [], World Demo.study [])
  /\ scan_dicom_series (u "nowhere") (World Demo.study [])
     = (Return [], World Demo.study []).
Proof.
  split; apply scan_dicom_series_not_a_directory; reflexivity.
Defined.

(** ** [bids_dcm_info] *)

(** X7. [bids_dcm_info] ends in one of two ways and changes no file.
    Either it returns, having printed nothing, a dictionary with exactly
    the keys [Sex] and [Age], in that order, taken from a non-empty data
    set that one of the files of the walk reads as; or it prints its
    three lines and exits with status 1. No error of reading a file
    reaches the caller. *)
Theorem bids_dcm_info_outcomes (dcm_dir : pystr) (w : world) :
  (exists d,
      d <> []
      /\ In (Some d) (headers_read (tree w) dcm_dir)
      /\ bids_dcm_info dcm_dir w
         = (Return
              (PDict [ (u "Sex", match dict.get d (u "PatientSex") with
                                 | Some v => v
                                 | None => PStr (u "Unknown")
                                 end);
                       (u "Age", match dict.get d (u "PatientAge") with
                                 | Some v => v
                                 | None => PInt 0
                                 end) ]), w))
  \/ bids_dcm_info dcm_dir w
     = (Raise (SystemExit 1),
        World (tree w) (stdout w ++ no_header_lines dcm_dir)).
Proof.
  rewrite bids_dcm_info_run, last_valid_pick_all, headers_read_concat.
  set (hss := map (headers_of (tree w)) (os.walk (tree w) dcm_dir)).
  destruct (pick_all_from hss None) as [E|E].
  - right. now rewrite E.
  - destruct (pick_all hss None) as [[|e d]|]; [now right| |now right].
    left. exists (e :: d). repeat split; [discriminate|exact E].
Qed.

(** X8. In a directory without subfolders the header used is that of the
    first file that reads as a non-empty data set; what the files after
    it hold makes no difference. *)
Theorem bids_dcm_info_first_valid_file (dcm_dir : pystr) (w : world)
    (pre post : list pystr) (file : pystr) (e : pystr * value) (d : Dataset) :
  os.walk (tree w) dcm_dir = [(dcm_dir, [], pre ++ file :: post)] ->
  (forall g, In g pre ->
     ds_truthy (header_at (tree w) (path.join dcm_dir g)) = false) ->
  header_at (tree w) (path.join dcm_dir file) = Some (e :: d) ->
  bids_dcm_info dcm_dir w = (Return (info_of (e :: d)), w).
Proof.
  intros Hwalk Hpre Hfile.
  rewrite bids_dcm_info_run, last_valid_pick_all, Hwalk.
  cbn [map headers_of pick_all fold_left].
  rewrite map_app. cbn [map]. rewrite Hfile.
  rewrite pick_first_valid; [reflexivity| |reflexivity].
  intros h Hh. apply in_map_iff in Hh as (g & <- & Hg). now apply Hpre.
Qed.

(** Notes, then an anonymised image, then an image of another subject. *)
Lemma bids_dcm_info_first_valid_file_witness :
  let t := Dir [ (u "ses1",
                  Dir [ (u "notes.txt", Demo.notes);
                        (u "0001.dcm", Demo.image Demo.anon);
                        (u "0002.dcm", Demo.image Demo.rest) ]) ] in
  bids_dcm_info (u "ses1") (World t [])
  = (Return (PDict [ (u "Sex", PStr (u "Unknown")); (u "Age", PInt 0) ]), World t []).
Proof.
  intros t.
  apply (bids_dcm_info_first_valid_file (u "ses1") (World t [])
           [u "notes.txt"] [u "0002.dcm"] (u "0001.dcm")
           (u "SeriesDescription", PStr (u "T1w")) []).
  - reflexivity.
  - intros g [<-|[]]. reflexivity.
  - reflexivity.
Defined.

(** X9. The last directory of the walk decides whenever its first file is
    a valid header: that header is the one used, whatever was read in the
    directories before it. *)
Theorem bids_dcm_info_last_directory_wins (dcm_dir : pystr) (w : world)
    (before : list (pystr * list pystr * list pystr))
    (subdir : pystr) (dirs files : list pystr) (file : pystr)
    (e : pystr * value) (d : Dataset) :
  os.walk (tree w) dcm_dir = before ++ [(subdir, dirs, file :: files)] ->
  header_at (tree w) (path.join subdir file) = Some (e :: d) ->
  bids_dcm_info dcm_dir w = (Return (info_of (e :: d)), w).
Proof.
  intros Hwalk Hfile.
  rewrite bids_dcm_info_run, last_valid_pick_all, Hwalk.
  rewrite map_app. unfold pick_all. rewrite fold_left_app.
  cbn [map headers_of fold_left pick]. now rewrite Hfile.
Qed.

(** The nested session: the image in [series2] is the one used. *)
Lemma bids_dcm_info_last_directory_wins_witness :
  bids_dcm_info (u "ses1") (World Demo.nested_session [])
  = (Return (info_of Demo.rest), World Demo.nested_session []).
Proof.
  apply (bids_dcm_info_last_directory_wins (u "ses1") (World Demo.nested_session [])
           [(u "ses1", [u "series2"], [u "0001.dcm"])]
           (u "ses1/series2") [] [] (u "0001.dcm")
           (u "PatientSex", PStr (u "F"))
           [ (u "PatientAge", PStr (u "034Y"));
             (u "SeriesDescription", PStr (u "rest")) ]);
    reflexivity.
Defined.

(** X10. A valid header can be lost: when the files of the last
    directory of the walk all read as data sets without an element,
    [bids_dcm_info] exits with status 1 whatever was read in the
    directories before it. *)
Theorem bids_dcm_info_empty_data_sets_last (dcm_dir : pystr) (w : world)
    (before : list (pystr * list pystr * list pystr))
    (subdir : pystr) (dirs files : list pystr) :
  os.walk (tree w) dcm_dir = before ++ [(subdir, dirs, files)] ->
  files <> [] ->
  (forall file, In file files ->
     header_at (tree w) (path.join subdir file) = Some []) ->
  bids_dcm_info dcm_dir w
  = (Raise (SystemExit 1), World (tree w) (stdout w ++ no_header_lines dcm_dir)).
Proof.
  intros Hwalk Hne Hall.
  rewrite bids_dcm_info_run, last_valid_pick_all, Hwalk.
  rewrite map_app. unfold pick_all. rewrite fold_left_app.
  cbn [map headers_of fold_left].
  rewrite pick_empty; [reflexivity| |].
  - destruct files; [now destruct Hne|discriminate].
  - intros h Hh. apply in_map_iff in Hh as (file & <- & Hfile). now apply Hall.
Qed.

(** A valid image at the top of the session, an empty one in a folder. *)
Lemma bids_dcm_info_empty_data_sets_last_witness :
  let t := Dir [ (u "ses1",
                  Dir [ (u "0001.dcm", Demo.image Demo.t1w);
                        (u "series2", Dir [ (u "0001.dcm", Demo.image []) ]) ]) ] in
  header_at t (u "ses1/0001.dcm") = Some Demo.t1w
  /\ bids_dcm_info (u "ses1") (World t [])
     = (Raise (SystemExit 1), World t (no_header_lines (u "ses1"))).
Proof.
  intros t. split; [reflexivity|].
  apply (bids_dcm_info_empty_data_sets_last (u "ses1") (World t [])
           [(u "ses1", [u "series2"], [u "0001.dcm"])]
           (u "ses1/series2") [] [u "0001.dcm"]).
  - reflexivity.
  - discriminate.
  - intros file [<-|[]]. reflexivity.
Defined.

(** X11. Given a path that is not a directory, be it the path of a valid
    image, [bids_dcm_info] reads nothing: it prints its diagnostic and
    exits with status 1. *)
Theorem bids_dcm_info_not_a_directory (dcm_dir : pystr) (w : world) :
  os.isdir (tree w) dcm_dir = false ->
  bids_dcm_info dcm_dir w
  = (Raise (SystemExit 1), World (tree w) (stdout w ++ no_header_lines dcm_dir)).
Proof.
  intros Hd. rewrite bids_dcm_info_run.
  unfold os.walk. unfold os.isdir in Hd.
  destruct (os.stat (tree w) dcm_dir) as [x|[t d|es]]; try discriminate; reflexivity.
Qed.

(** The path of the first image of the study. *)
Lemma bids_dcm_info_not_a_directory_witness :
  header_at Demo.study (u "dicom/A/ses1/0001.dcm") = Some Demo.t1w
  /\ fst (bids_dcm_info (u "dicom/A/ses1/0001.dcm") (World Demo.study []))
     = Raise (SystemExit 1).
Proof.
  split; [reflexivity|].
  now rewrite (bids_dcm_info_not_a_directory (u "dicom/A/ses1/0001.dcm")
                 (World Demo.study []) eq_refl).
Defined.

(** ** [bids_load_prot_dict] *)

(** X12. [bids_load_prot_dict] raises only when a regular file is at the
    path, and then only because its content does not decode: no error of
    the file system reaches the caller, and the world is never changed. *)
Theorem bids_load_prot_dict_errors (p : pystr) (w : world) (e : exn) :
  fst (bids_load_prot_dict p w) = Raise e ->
  os.isfile (tree w) p = true
  /\ (e = JSONDecodeError \/ e = UnicodeDecodeError)
  /\ snd (bids_load_prot_dict p w) = w.
Proof.
  rewrite bids_load_prot_dict_spec. unfold os.isfile. cbn [fst snd].
  destruct (os.stat (tree w) p) as [x|[[t|] d|es]]; try discriminate.
  - destruct (json.loads t); [discriminate|].
    intros H. injection H as <-. auto.
  - intros H. injection H as <-. auto.
Qed.

Lemma bids_load_prot_dict_errors_witness :
  os.isfile Demo.broken (u "dicom/Protocol_Translator.json") = true
  /\ (JSONDecodeError = JSONDecodeError \/ JSONDecodeError = UnicodeDecodeError)
  /\ snd (bids_load_prot_dict (u "dicom/Protocol_Translator.json") (World Demo.broken []))
     = World Demo.broken [].
Proof.
  apply (bids_load_prot_dict_errors (u "dicom/Protocol_Translator.json")
           (World Demo.broken []) JSONDecodeError).
  reflexivity.
Defined.

(** ** [bids_create_prot_dict] *)

(** X13. Where the path is an existing directory, [bids_create_prot_dict]
    raises the error of [open] for a directory; nothing is written and
    nothing is printed. *)
Theorem bids_create_prot_dict_on_directory (p : pystr) (d : value) (w : world) :
  os.isdir (tree w) p = true ->
  bids_create_prot_dict p d w = (Raise (OSError os.EISDIR), w).
Proof.
  intros Hd. rewrite bids_create_prot_dict_run.
  unfold os.isdir in Hd. unfold os.isfile.
  destruct (os.stat (tree w) p) as [e|[a b|es0]] eqn:Hst; try discriminate.
  now rewrite (create_on_directory _ _ _ Hst).
Qed.

(** The input root given in place of the path of the dictionary. *)
Lemma bids_create_prot_dict_on_directory_witness :
  bids_create_prot_dict (u "dicom/") (PDict []) (World Demo.study [])
  = (Raise (OSError os.EISDIR), World Demo.study []).
Proof.
  apply bids_create_prot_dict_on_directory. reflexivity.
Defined.

(** X14. A call of [bids_create_prot_dict] that fails is a call on a
    path that is no regular file, fails with the error of [open], and
    has done nothing: no line is printed and no file is written. *)
Theorem bids_create_prot_dict_failure (p : pystr) (d : value) (w : world) (e : exn) :
  fst (bids_create_prot_dict p d w) = Raise e ->
  os.isfile (tree w) p = false
  /\ (exists errno, e = OSError errno)
  /\ snd (bids_create_prot_dict p d w) = w.
Proof.
  rewrite bids_create_prot_dict_run.
  destruct (os.isfile (tree w) p); [discriminate|].
  destruct (os.create (tree w) p) as [errno|[h t']]; [|discriminate].
  intros H. injection H as <-. eauto.
Qed.

(** A dictionary for a directory that does not exist. *)
Lemma bids_create_prot_dict_failure_witness :
  let p := u "nowhere/Protocol_Translator.json" in
  let w := World Demo.study [] in
  os.isfile (tree w) p = false
  /\ (exists errno, OSError os.ENOENT = OSError errno)
  /\ snd (bids_create_prot_dict p (PDict []) w) = w.
Proof.
  intros p w.
  apply (bids_create_prot_dict_failure p (PDict []) w (OSError os.ENOENT)).
  reflexivity.
Defined.

(** X15. [bids_create_prot_dict] changes no file that exists: every
    regular file of the tree, under whatever path it is reached, is a
    regular file with the same content after the call, whether the call
    skipped, wrote the dictionary or failed. *)
Theorem bids_create_prot_dict_keeps_files (p q : pystr) (d : value) (w : world)
    (a : option pystr) (b : option Dataset) :
  os.stat (tree w) q = inr (File a b) ->
  os.stat (tree (snd (bids_create_prot_dict p d w))) q = inr (File a b).
Proof.
  intros Hq. rewrite bids_create_prot_dict_run.
  destruct (os.isfile (tree w) p) eqn:Hf; [exact Hq|].
  destruct (os.create (tree w) p) as [e|[h t']] eqn:Hc; [exact Hq|].
  cbn [snd tree]. exact (create_keeps_files _ _ _ _ _ _ _ _ Hc Hf Hq).
Qed.

(** The notes of the first session, after the dictionary is written. *)
Lemma bids_create_prot_dict_keeps_files_witness :
  os.stat
    (tree (snd (bids_create_prot_dict (u "dicom/Protocol_Translator.json")
                  (PDict [(u "T1w", PStr (u "EXCLUDE"))]) (World Demo.study []))))
    (u "dicom/A/ses1/notes.txt")
  = inr Demo.notes.
Proof.
  apply bids_create_prot_dict_keeps_files. reflexivity.
Defined.

(** X16. Whenever [bids_create_prot_dict] returns, the path is a regular
    file: the one that was there, or the one just written. *)
Theorem bids_create_prot_dict_file_exists (p : pystr) (d : value) (w : world) :
  fst (bids_create_prot_dict p d w) = Return tt ->
  os.isfile (tree (snd (bids_create_prot_dict p d w))) p = true.
Proof.
  rewrite bids_create_prot_dict_run.
  destruct (os.isfile (tree w) p) eqn:Hf; [intros _; exact Hf|].
  destruct (os.create (tree w) p) as [e|[h t']] eqn:Hc; [discriminate|].
  intros _. cbn [snd tree]. unfold os.isfile.
  now rewrite (created_file_stat p d w h t' Hc).
Qed.

Lemma bids_create_prot_dict_file_exists_witness :
  os.isfile
    (tree (snd (bids_create_prot_dict (u "dicom/Protocol_Translator.json")
                  (PDict []) (World Demo.study []))))
    (u "dicom/Protocol_Translator.json")
  = true.
Proof.
  apply bids_create_prot_dict_file_exists. reflexivity.
Defined.

(** X17. After a call of [bids_create_prot_dict] that returned, every
    further call on the same path, whatever dictionary it is given,
    skips: it prints the two lines of the skip and leaves the tree. *)
Theorem bids_create_prot_dict_second_call_skips (p : pystr) (d d' : value)
    (w : world) :
  fst (bids_create_prot_dict p d w) = Return tt ->
  bids_create_prot_dict p d' (snd (bids_create_prot_dict p d w))
  = (Return tt,
     World (tree (snd (bids_create_prot_dict p d w)))
       (stdout (snd (bids_create_prot_dict p d w)) ++ skipped_lines p)).
Proof.
  intros Hret.
  rewrite (bids_create_prot_dict_run p d' (snd (bids_create_prot_dict p d w))).
  rewrite (bids_create_prot_dict_run p d w) in *.
  destruct (os.isfile (tree w) p) eqn:Hf.
  - cbn [snd tree]. now rewrite Hf.
  - destruct (os.create (tree w) p) as [e|[h t']] eqn:Hc; [discriminate|].
    cbn [snd tree]. unfold os.isfile at 1.
    now rewrite (created_file_stat p d w h t' Hc).
Qed.

Lemma bids_create_prot_dict_second_call_skips_witness :
  let p := u "dicom/Protocol_Translator.json" in
  let w1 := snd (bids_create_prot_dict p (PDict [(u "T1w", PStr (u "EXCLUDE"))])
                   (World Demo.study [])) in
  bids_create_prot_dict p (PDict []) w1
  = (Return tt, World (tree w1) (created_lines p ++ skipped_lines p)).
Proof.
  intros p w1.
  apply (bids_create_prot_dict_second_call_skips p
           (PDict [(u "T1w", PStr (u "EXCLUDE"))]) (PDict []) (World Demo.study [])).
  reflexivity.
Defined.

(** ** Writing, then loading *)

(** X18. Round trip: a dictionary from strings to strings, with distinct
    keys and Unicode scalar values throughout, that
    [bids_create_prot_dict] writes to a new file is what
    [bids_load_prot_dict] returns from that file, keys in the same order. *)
Theorem written_dictionary_loads_back (kvs : list (pystr * pystr)) (p : pystr)
    (w : world) :
  NoDup (map fst kvs) ->
  forallb ok_item kvs = true ->
  os.isfile (tree w) p = false ->
  fst (bids_create_prot_dict p (PDict (str_dict kvs)) w) = Return tt ->
  fst (bids_load_prot_dict p (snd (bids_create_prot_dict p (PDict (str_dict kvs)) w)))
  = Return (PDict (str_dict kvs)).
Proof.
  intros Hnd Hok Hf Hret.
  rewrite bids_create_prot_dict_run, Hf in *.
  destruct (os.create (tree w) p) as [e|[h t']] eqn:Hc; [discriminate|].
  cbn [snd]. rewrite bids_load_prot_dict_spec. cbn [tree fst].
  rewrite (created_file_stat p _ w h t' Hc).
  now rewrite loads_dict_text.
Qed.

(** An edited dictionary, with a label that needs escaping. *)
Lemma written_dictionary_loads_back_witness :
  let kvs := [ (u "T1w", u "anat/T1w"); (u "rest", [233; 92; 34; 128512]%N) ] in
  let p := u "dicom/Protocol_Translator.json" in
  let w := World Demo.study [] in
  fst (bids_load_prot_dict p (snd (bids_create_prot_dict p (PDict (str_dict kvs)) w)))
  = Return (PDict (str_dict kvs)).
Proof.
  intros kvs p w. apply (written_dictionary_loads_back kvs p w).
  - repeat constructor; cbn; intuition discriminate.
  - reflexivity.
  - reflexivity.
  - reflexivity.
Defined.

(** X19. Once [bids_create_prot_dict] has written a non-empty dictionary
    of strings at the path [main] loads from, the next run of [main] does
    not reach a pass: it ends in the [NameError] of [bids_root_dir]. *)
Theorem main_after_written_dictionary (indir : option pystr)
    (kv : pystr * pystr) (kvs : list (pystr * pystr)) (w : world) :
  NoDup (map fst (kv :: kvs)) ->
  forallb ok_item (kv :: kvs) = true ->
  os.isfile (tree w) (prot_dict_json_of indir) = false ->
  fst (bids_create_prot_dict (prot_dict_json_of indir)
         (PDict (str_dict (kv :: kvs))) w) = Return tt ->
  fst (main indir
         (snd (bids_create_prot_dict (prot_dict_json_of indir)
                 (PDict (str_dict (kv :: kvs))) w)))
  = Raise (NameError (u "bids_root_dir")).
Proof.
  intros Hnd Hok Hf Hret.
  rewrite bids_create_prot_dict_run, Hf in *.
  destruct (os.create (tree w) (prot_dict_json_of indir)) as [e|[h t']] eqn:Hc;
    [discriminate|].
  cbn [snd]. rewrite main_spec, bids_load_prot_dict_spec. cbn [tree fst].
  rewrite (created_file_stat _ _ w h t' Hc).
  now rewrite loads_dict_text.
Qed.

Lemma main_after_written_dictionary_witness :
  fst (main None
         (snd (bids_create_prot_dict (u "dicom/Protocol_Translator.json")
                 (PDict (str_dict [(u "T1w", u "EXCLUDE")])) (World Demo.study []))))
  = Raise (NameError (u "bids_root_dir")).
Proof.
  apply (main_after_written_dictionary None (u "T1w", u "EXCLUDE") []
           (World Demo.study [])).
  - repeat constructor; cbn; intuition.
  - reflexivity.
  - reflexivity.
  - reflexivity.
Defined.

(** X20. Where the dictionary file exists, [bids_create_prot_dict] does
    not change what [bids_load_prot_dict] gives: the value, or the error,
    is the same after the call as before it. *)
Theorem load_unchanged_by_skipped_creation (p : pystr) (d : value) (w : world) :
  os.isfile (tree w) p = true ->
  fst (bids_load_prot_dict p (snd (bids_create_prot_dict p d w)))
  = fst (bids_load_prot_dict p w).
Proof.
  intros Hf. rewrite bids_create_prot_dict_run, Hf. cbn [snd].
  now rewrite !bids_load_prot_dict_spec.
Qed.

Lemma load_unchanged_by_skipped_creation_witness :
  fst (bids_load_prot_dict (u "dicom/Protocol_Translator.json")
         (snd (bids_create_prot_dict (u "dicom/Protocol_Translator.json")
                 (PDict []) (World Demo.prepared []))))
  = Return (PDict [ (u "T1w", PStr (u "anat/T1w")); (u "rest", PStr (u "EXCLUDE")) ]).
Proof.
  refine (eq_trans
            (load_unchanged_by_skipped_creation (u "dicom/Protocol_Translator.json")
               (PDict []) (World Demo.prepared []) _) _); reflexivity.
Defined.

End Further.
